(** * Optimistic mutation protocol of the post stores

    A shallow embedding of the store variants of the repository
    (zustand [postsStore], context-api [PostsProvider], recoil
    [postsState], redux-toolkit [postsSlice] and its [usePosts] hook) and of
    the [postsApi] client they call, with the properties of the optimistic
    create / update / delete protocol proved over them.  Around them: the
    jotai hook, the reducers of the redux [fetchPosts] thunk, the
    [usePostEditor] hook that calls the stores, the HTTP interceptor and
    [getById], [isNetworkError], and the paging of [PostList] and
    [Pagination].

    Conventions of the embedding:
    - a JavaScript [number] used as an id is an integer ([Z]); every id in
      the domain is an integer ([Date.now()] and the server's ids);
    - an array is a [list]; [find], [findIndex], [map], [filter] and the
      stable [sort] are the list functions below;
    - an [async] function with one [await] is a value of [Async]: either it
      settles before reaching the [await], or it suspends with the store in
      some state, a pending remote call, and a continuation that receives
      the outcome of the call and the store's state at the time it resumes;
    - [Date.now()] is an argument ([tempId]) of the functions that read it. *)

From Stdlib Require Import ZArith List String Bool Lia Sorted Permutation.
From Stdlib Require Import DecimalString.
Import ListNotations.
Local Open Scope string_scope.
Local Open Scope list_scope.
Local Open Scope Z_scope.

(* ================================================================= *)
(** ** JavaScript values that the stores throw and catch *)

Module Js.

(** What a [catch (err)] clause can receive: an object for which
    [err instanceof Error] holds (with the name of its constructor and
    its [message]), or any other value. *)
Inductive Value : Type :=
| ErrorObject (ctor : string) (message : string)
| NonError (repr : string).

(** [new Error(msg)] *)
Definition new_Error (msg : string) : Value := ErrorObject "Error" msg.

(** [v instanceof Error] *)
Definition instanceof_Error (v : Value) : bool :=
  match v with
  | ErrorObject _ _ => true
  | NonError _ => false
  end.

(** [err instanceof Error ? err : new Error(fallback)] *)
Definition as_Error (err : Value) (fallback : string) : Value :=
  if instanceof_Error err then err else new_Error fallback.

(** The constructor a caller sees through [e.constructor.name], when the
    value is an [Error]. *)
Definition ctor_of (v : Value) : option string :=
  match v with
  | ErrorObject c _ => Some c
  | NonError _ => None
  end.

Definition message_of (v : Value) : option string :=
  match v with
  | ErrorObject _ m => Some m
  | NonError _ => None
  end.

Section Arrays.
Variable A : Type.

(** [arr.findIndex(pred)], with [None] for [-1]. *)
Fixpoint findIndex (pred : A -> bool) (arr : list A) : option nat :=
  match arr with
  | [] => None
  | x :: rest =>
      if pred x then Some O
      else option_map S (findIndex pred rest)
  end.

(** [arr[index] = v] for an index inside the array (the only use the
    reducers make of it: the index comes from [findIndex]). *)
Fixpoint assign (arr : list A) (index : nat) (v : A) : list A :=
  match arr, index with
  | [], _ => []
  | _ :: rest, O => v :: rest
  | x :: rest, S i => x :: assign rest i v
  end.

(** [arr.sort(cmp)]: ECMAScript requires the sort to be stable and,
    for a consistent comparator, the result to be ordered by it; the
    result is then determined by the input, and a stable insertion
    sort computes it.  [x] goes before the first [y] with
    [cmp x y <= 0]. *)
Variable cmp : A -> A -> Z.

Fixpoint insert (x : A) (sorted : list A) : list A :=
  match sorted with
  | [] => [x]
  | y :: rest =>
      if cmp x y <=? 0 then x :: y :: rest
      else y :: insert x rest
  end.

Definition sort (arr : list A) : list A :=
  fold_right insert [] arr.
End Arrays.

Arguments findIndex {A} pred arr.
Arguments assign {A} arr index v.
Arguments insert {A} cmp x sorted.
Arguments sort {A} cmp arr.

End Js.

(* ================================================================= *)
(** ** Data model: [Post], [Omit<Post, 'id'>], [Partial<Post>] *)

Record Post : Type := mkPost {
  id : Z;
  userId : Z;
  title : string;
  body : string
}.

(** [Omit<Post, 'id'>] *)
Record PostData : Type := mkPostData {
  d_userId : Z;
  d_title : string;
  d_body : string
}.

(** [Partial<Post>]: every field of [Post], [id] included, may be absent. *)
Record PartialPost : Type := mkPartial {
  p_id : option Z;
  p_userId : option Z;
  p_title : option string;
  p_body : option string
}.

(** [{ id: tempId, ...data }] *)
Definition spread_create (tempId : Z) (data : PostData) : Post :=
  mkPost tempId (d_userId data) (d_title data) (d_body data).

Definition or_else {A : Type} (o : option A) (dflt : A) : A :=
  match o with
  | Some v => v
  | None => dflt
  end.

(** [{ ...p, ...data }] *)
Definition spread_merge (p : Post) (data : PartialPost) : Post :=
  mkPost (or_else (p_id data) (id p))
         (or_else (p_userId data) (userId p))
         (or_else (p_title data) (title p))
         (or_else (p_body data) (body p)).

(** [(p) => p.id === i] *)
Definition has_id (i : Z) (p : Post) : bool := id p =? i.

(** [(p) => p.id !== i] *)
Definition lacks_id (i : Z) (p : Post) : bool := negb (id p =? i).

(** [(a, b) => a.id - b.id] *)
Definition by_id (a b : Post) : Z := id a - id b.

Definition ids (posts : list Post) : list Z := map id posts.

(** The store state [{ posts, loading, error }]. *)
Record PostsState : Type := mkState {
  posts : list Post;
  loading : bool;
  error : option Js.Value
}.

Definition with_posts (s : PostsState) (ps : list Post) : PostsState :=
  mkState ps (loading s) (error s).

Definition with_error (s : PostsState) (e : option Js.Value) : PostsState :=
  mkState (posts s) (loading s) e.

(* ================================================================= *)
(** ** Asynchronous operations *)

(** How an awaited promise settles. *)
Inductive Outcome (R : Type) : Type :=
| Resolved (r : R)
| Rejected (err : Js.Value).
Arguments Resolved {R} r.
Arguments Rejected {R} err.

(** How an [async] function completes. *)
Inductive Completion (A : Type) : Type :=
| Returned (a : A)
| Threw (err : Js.Value).
Arguments Returned {A} a.
Arguments Threw {A} err.

(** The remote calls of [postsApi]. *)
Inductive ApiCall : Type :=
| CallGetAll
| CallCreate (data : PostData)
| CallUpdate (i : Z) (data : PartialPost)
| CallDelete (i : Z).

(** An [async] store operation with one [await], started on some state. *)
Inductive Async (R A : Type) : Type :=
| Settled (s : PostsState) (c : Completion A)
| Awaiting (s : PostsState) (call : ApiCall)
           (resume : Outcome R -> PostsState -> PostsState * Completion A).
Arguments Settled {R A} s c.
Arguments Awaiting {R A} s call resume.

(** The state right after the synchronous part of the operation. *)
Definition immediate {R A} (a : Async R A) : PostsState :=
  match a with
  | Settled s _ => s
  | Awaiting s _ _ => s
  end.

(** The remote call the operation issued, if any. *)
Definition remote_call {R A} (a : Async R A) : option ApiCall :=
  match a with
  | Settled _ _ => None
  | Awaiting _ call _ => Some call
  end.

(** The operation run to completion with nothing interleaved: it resumes
    on the state it suspended with. *)
Definition complete {R A} (a : Async R A) (o : Outcome R)
  : PostsState * Completion A :=
  match a with
  | Settled s c => (s, c)
  | Awaiting s _ resume => resume o s
  end.

Definition final_state {R A} (a : Async R A) (o : Outcome R) : PostsState :=
  fst (complete a o).

Definition result {R A} (a : Async R A) (o : Outcome R) : Completion A :=
  snd (complete a o).

(* ================================================================= *)
(** ** [postsApi] (packages/api) and the messages of packages/config *)

Module ERROR_MESSAGES.
Definition FETCH_POSTS := "Failed to fetch posts".
Definition CREATE_POST := "Failed to create post".
Definition UPDATE_POST := "Failed to update post".
Definition DELETE_POST := "Failed to delete post".
Definition POST_NOT_FOUND := "Post not found".
End ERROR_MESSAGES.

Module postsApi.
(** Each method awaits the HTTP client and, in its [catch], throws a new
    [Error] with the message of the operation, whatever was caught.
    The argument is how the HTTP request settled. *)
Definition wrap {R} (msg : string) (http : Outcome R) : Outcome R :=
  match http with
  | Resolved r => Resolved r
  | Rejected _ => Rejected (Js.new_Error msg)
  end.

Definition getAll (http : Outcome (list Post)) := wrap ERROR_MESSAGES.FETCH_POSTS http.
Definition create (http : Outcome Post) := wrap ERROR_MESSAGES.CREATE_POST http.
Definition update (http : Outcome Post) := wrap ERROR_MESSAGES.UPDATE_POST http.
Definition delete (http : Outcome unit) := wrap ERROR_MESSAGES.DELETE_POST http.
End postsApi.

(* ================================================================= *)
(** ** zustand: [usePostsStore] *)

Module Zustand.

Definition fetchPosts (s : PostsState) : Async (list Post) unit :=
  (* set({ loading: true, error: null }) *)
  let s1 := mkState (posts s) true None in
  Awaiting s1 CallGetAll (fun o cur =>
    match o with
    | Resolved data =>
        (* set({ posts: data, loading: false }) *)
        (mkState data false (error cur), Returned tt)
    | Rejected err =>
        let e := Js.as_Error err "Failed to fetch posts" in
        (* set({ error, loading: false }) *)
        (mkState (posts cur) false (Some e), Returned tt)
    end).

Definition createPost (tempId : Z) (data : PostData) (s : PostsState)
  : Async Post Post :=
  let optimisticPost := spread_create tempId data in
  let s1 := with_posts s (optimisticPost :: posts s) in
  Awaiting s1 (CallCreate data) (fun o cur =>
    match o with
    | Resolved newPost =>
        (with_posts cur
           (map (fun p => if has_id tempId p then newPost else p) (posts cur)),
         Returned newPost)
    | Rejected err =>
        (mkState (filter (lacks_id tempId) (posts cur)) (loading cur)
                 (Some (Js.as_Error err "Failed to create post")),
         Threw (Js.as_Error err "Failed to create post"))
    end).

Definition updatePost (i : Z) (data : PartialPost) (s : PostsState)
  : Async Post Post :=
  match find (has_id i) (posts s) with
  | None => Settled s (Threw (Js.new_Error "Post not found"))
  | Some originalPost =>
      let s1 :=
        with_posts s
          (map (fun p => if has_id i p then spread_merge p data else p)
               (posts s)) in
      Awaiting s1 (CallUpdate i data) (fun o cur =>
        match o with
        | Resolved updatedPost =>
            (with_posts cur
               (map (fun p => if has_id i p then updatedPost else p)
                    (posts cur)),
             Returned updatedPost)
        | Rejected err =>
            (mkState
               (map (fun p => if has_id i p then originalPost else p)
                    (posts cur))
               (loading cur)
               (Some (Js.as_Error err "Failed to update post")),
             Threw (Js.as_Error err "Failed to update post"))
        end)
  end.

Definition deletePost (i : Z) (s : PostsState) : Async unit unit :=
  match find (has_id i) (posts s) with
  | None => Settled s (Threw (Js.new_Error "Post not found"))
  | Some postToDelete =>
      let s1 := with_posts s (filter (lacks_id i) (posts s)) in
      Awaiting s1 (CallDelete i) (fun o cur =>
        match o with
        | Resolved _ => (cur, Returned tt)
        | Rejected err =>
            (mkState (Js.sort by_id (posts cur ++ [postToDelete]))
                     (loading cur)
                     (Some (Js.as_Error err "Failed to delete post")),
             Threw (Js.as_Error err "Failed to delete post"))
        end)
  end.

End Zustand.

(* ================================================================= *)
(** ** context-api: [PostsProvider] *)

Module ContextApi.

(** The three [useState] cells are the fields of [PostsState].
    [setPosts(fn)] applies [fn] to the cell's value at that time;
    [updatePost] and [deletePost] also read [posts] of the render that
    created them ([captured]). *)

Definition fetchPosts (s : PostsState) : Async (list Post) unit :=
  (* setLoading(true); setError(null) *)
  let s1 := mkState (posts s) true None in
  Awaiting s1 CallGetAll (fun o cur =>
    match o with
    | Resolved data =>
        (* setPosts(data); finally setLoading(false) *)
        (mkState data false (error cur), Returned tt)
    | Rejected err =>
        let e := Js.as_Error err "Failed to fetch posts" in
        (* setError(error); finally setLoading(false) *)
        (mkState (posts cur) false (Some e), Returned tt)
    end).

Definition createPost (tempId : Z) (data : PostData) (s : PostsState)
  : Async Post Post :=
  let optimisticPost := spread_create tempId data in
  let s1 := with_posts s (optimisticPost :: posts s) in
  Awaiting s1 (CallCreate data) (fun o cur =>
    match o with
    | Resolved newPost =>
        (with_posts cur
           (map (fun p => if has_id tempId p then newPost else p) (posts cur)),
         Returned newPost)
    | Rejected err =>
        let cur1 := with_posts cur (filter (lacks_id tempId) (posts cur)) in
        let e := Js.as_Error err "Failed to create post" in
        (with_error cur1 (Some e), Threw e)
    end).

Definition updatePost (captured : list Post) (i : Z) (data : PartialPost)
  (s : PostsState) : Async Post Post :=
  match find (has_id i) captured with
  | None => Settled s (Threw (Js.new_Error "Post not found"))
  | Some originalPost =>
      let s1 :=
        with_posts s
          (map (fun p => if has_id i p then spread_merge p data else p)
               (posts s)) in
      Awaiting s1 (CallUpdate i data) (fun o cur =>
        match o with
        | Resolved updatedPost =>
            (with_posts cur
               (map (fun p => if has_id i p then updatedPost else p)
                    (posts cur)),
             Returned updatedPost)
        | Rejected err =>
            let cur1 :=
              with_posts cur
                (map (fun p => if has_id i p then originalPost else p)
                     (posts cur)) in
            let e := Js.as_Error err "Failed to update post" in
            (with_error cur1 (Some e), Threw e)
        end)
  end.

Definition deletePost (captured : list Post) (i : Z) (s : PostsState)
  : Async unit unit :=
  match find (has_id i) captured with
  | None => Settled s (Threw (Js.new_Error "Post not found"))
  | Some postToDelete =>
      let s1 := with_posts s (filter (lacks_id i) (posts s)) in
      Awaiting s1 (CallDelete i) (fun o cur =>
        match o with
        | Resolved _ => (cur, Returned tt)
        | Rejected err =>
            let cur1 :=
              with_posts cur (Js.sort by_id (posts cur ++ [postToDelete])) in
            let e := Js.as_Error err "Failed to delete post" in
            (with_error cur1 (Some e), Threw e)
        end)
  end.

(** The callbacks the provider hands out in the render whose state is
    [s]: they capture that render's [posts]. *)
Definition rendered_updatePost (i : Z) (data : PartialPost) (s : PostsState) :=
  updatePost (posts s) i data s.

Definition rendered_deletePost (i : Z) (s : PostsState) :=
  deletePost (posts s) i s.

End ContextApi.

(* ================================================================= *)
(** ** recoil: the actions of [postsState] and the [usePosts] hook *)

Module Recoil.

(** The actions receive the array [posts] of the calling render and the
    plain setters of the atoms: [setPosts(v)] stores [v]. *)

Definition fetchPostsAction (s : PostsState) : Async (list Post) unit :=
  (* setLoading(true); setError(null) *)
  let s1 := mkState (posts s) true None in
  Awaiting s1 CallGetAll (fun o cur =>
    match o with
    | Resolved data => (mkState data false (error cur), Returned tt)
    | Rejected err =>
        let e := Js.as_Error err "Failed to fetch posts" in
        (mkState (posts cur) false (Some e), Returned tt)
    end).

Definition createPostAction (tempId : Z) (data : PostData)
  (posts_arg : list Post) (s : PostsState) : Async Post Post :=
  let optimisticPost := spread_create tempId data in
  (* setPosts([optimisticPost, ...posts]) *)
  let s1 := with_posts s (optimisticPost :: posts_arg) in
  Awaiting s1 (CallCreate data) (fun o cur =>
    match o with
    | Resolved newPost =>
        (* setPosts(posts.map(...)) *)
        (with_posts cur
           (map (fun p => if has_id tempId p then newPost else p) posts_arg),
         Returned newPost)
    | Rejected err =>
        (* setPosts(posts.filter(...)); setError(error) *)
        let cur1 := with_posts cur (filter (lacks_id tempId) posts_arg) in
        let e := Js.as_Error err "Failed to create post" in
        (with_error cur1 (Some e), Threw e)
    end).

Definition updatePostAction (i : Z) (data : PartialPost)
  (posts_arg : list Post) (s : PostsState) : Async Post Post :=
  match find (has_id i) posts_arg with
  | None => Settled s (Threw (Js.new_Error "Post not found"))
  | Some originalPost =>
      let s1 :=
        with_posts s
          (map (fun p => if has_id i p then spread_merge p data else p)
               posts_arg) in
      Awaiting s1 (CallUpdate i data) (fun o cur =>
        match o with
        | Resolved updatedPost =>
            (with_posts cur
               (map (fun p => if has_id i p then updatedPost else p)
                    posts_arg),
             Returned updatedPost)
        | Rejected err =>
            let cur1 :=
              with_posts cur
                (map (fun p => if has_id i p then originalPost else p)
                     posts_arg) in
            let e := Js.as_Error err "Failed to update post" in
            (with_error cur1 (Some e), Threw e)
        end)
  end.

Definition deletePostAction (i : Z) (posts_arg : list Post)
  (s : PostsState) : Async unit unit :=
  match find (has_id i) posts_arg with
  | None => Settled s (Threw (Js.new_Error "Post not found"))
  | Some postToDelete =>
      let s1 := with_posts s (filter (lacks_id i) posts_arg) in
      Awaiting s1 (CallDelete i) (fun o cur =>
        match o with
        | Resolved _ => (cur, Returned tt)
        | Rejected err =>
            (* setPosts([...posts, postToDelete].sort(...)) *)
            let cur1 :=
              with_posts cur (Js.sort by_id (posts_arg ++ [postToDelete])) in
            let e := Js.as_Error err "Failed to delete post" in
            (with_error cur1 (Some e), Threw e)
        end)
  end.

(** [usePosts]: each callback passes the [posts] of its render. *)
Definition createPost (tempId : Z) (data : PostData) (s : PostsState) :=
  createPostAction tempId data (posts s) s.

Definition updatePost (i : Z) (data : PartialPost) (s : PostsState) :=
  updatePostAction i data (posts s) s.

Definition deletePost (i : Z) (s : PostsState) :=
  deletePostAction i (posts s) s.

End Recoil.

(* ================================================================= *)
(** ** redux-toolkit: the reducers of [postsSlice] and the [usePosts] hook *)

Module Redux.

Definition optimisticCreate (payload : Post) (s : PostsState) : PostsState :=
  with_posts s (payload :: posts s).

Definition rollbackCreate (payload : Z) (s : PostsState) : PostsState :=
  with_posts s (filter (lacks_id payload) (posts s)).

Definition optimisticUpdate (i : Z) (data : PartialPost) (s : PostsState)
  : PostsState :=
  match Js.findIndex (has_id i) (posts s) with
  | None => s
  | Some index =>
      match nth_error (posts s) index with
      | None => s
      | Some p => with_posts s (Js.assign (posts s) index (spread_merge p data))
      end
  end.

Definition rollbackUpdate (i : Z) (originalPost : Post) (s : PostsState)
  : PostsState :=
  match Js.findIndex (has_id i) (posts s) with
  | None => s
  | Some index => with_posts s (Js.assign (posts s) index originalPost)
  end.

Definition optimisticDelete (payload : Z) (s : PostsState) : PostsState :=
  with_posts s (filter (lacks_id payload) (posts s)).

Definition rollbackDelete (payload : Post) (s : PostsState) : PostsState :=
  with_posts s (Js.sort by_id (posts s ++ [payload])).

(** [createPostThunk.fulfilled]: the placeholder is taken to be the first
    post whose id exceeds 1000. *)
Definition createPostThunk_fulfilled (payload : Post) (s : PostsState)
  : PostsState :=
  match find (fun p => id p >? 1000) (posts s) with
  | None => s
  | Some placeholder =>
      let tempId := id placeholder in
      if tempId =? 0 then s   (* if (tempId) *)
      else
        match Js.findIndex (has_id tempId) (posts s) with
        | None => s
        | Some index => with_posts s (Js.assign (posts s) index payload)
        end
  end.

Definition updatePostThunk_fulfilled (payload : Post) (s : PostsState)
  : PostsState :=
  match Js.findIndex (has_id (id payload)) (posts s) with
  | None => s
  | Some index => with_posts s (Js.assign (posts s) index payload)
  end.

(** What [createAsyncThunk] makes of the value its payload creator
    rejects with: [action.error], which is also what [unwrap()] rejects
    with, is a plain object that carries the message; it is not an
    [Error]. *)
Definition miniSerializeError (err : Js.Value) : Js.Value :=
  match err with
  | Js.ErrorObject _ m => Js.NonError m
  | Js.NonError repr => Js.NonError repr
  end.

(** The hook: [captured] is [posts] of the render that made the callback;
    the awaited promise is [dispatch(thunk).unwrap()], and the outcome is
    that of the remote call inside the thunk. *)
Definition createPost (tempId : Z) (data : PostData) (s : PostsState)
  : Async Post Post :=
  let optimisticPost := spread_create tempId data in
  Awaiting (optimisticCreate optimisticPost s) (CallCreate data) (fun o cur =>
    match o with
    | Resolved r => (createPostThunk_fulfilled r cur, Returned r)
    | Rejected err =>
        (rollbackCreate tempId cur,
         Threw (Js.as_Error (miniSerializeError err)
                         "Failed to create post"))
    end).

Definition updatePost (captured : list Post) (i : Z) (data : PartialPost)
  (s : PostsState) : Async Post Post :=
  match find (has_id i) captured with
  | None => Settled s (Threw (Js.new_Error "Post not found"))
  | Some originalPost =>
      Awaiting (optimisticUpdate i data s) (CallUpdate i data) (fun o cur =>
        match o with
        | Resolved r => (updatePostThunk_fulfilled r cur, Returned r)
        | Rejected err =>
            (rollbackUpdate i originalPost cur,
             Threw (Js.as_Error (miniSerializeError err)
                         "Failed to update post"))
        end)
  end.

Definition deletePost (captured : list Post) (i : Z) (s : PostsState)
  : Async unit unit :=
  match find (has_id i) captured with
  | None => Settled s (Threw (Js.new_Error "Post not found"))
  | Some postToDelete =>
      Awaiting (optimisticDelete i s) (CallDelete i) (fun o cur =>
        match o with
        | Resolved _ => (cur, Returned tt)
        | Rejected err =>
            (rollbackDelete postToDelete cur,
             Threw (Js.as_Error (miniSerializeError err)
                         "Failed to delete post"))
        end)
  end.

Definition rendered_updatePost (i : Z) (data : PartialPost) (s : PostsState) :=
  updatePost (posts s) i data s.

Definition rendered_deletePost (i : Z) (s : PostsState) :=
  deletePost (posts s) i s.

End Redux.

(* ================================================================= *)
(** ** Sequences of operations and their observable states *)

(** What every variant's [usePosts] returns ([UsePostsReturn]), as
    functions of the state of the render that made the callbacks. *)
Record UsePostsReturn : Type := mkHook {
  createPost : Z -> PostData -> PostsState -> Async Post Post;
  updatePost : Z -> PartialPost -> PostsState -> Async Post Post;
  deletePost : Z -> PostsState -> Async unit unit
}.

Definition zustand_hook : UsePostsReturn :=
  mkHook Zustand.createPost Zustand.updatePost Zustand.deletePost.

Definition context_hook : UsePostsReturn :=
  mkHook ContextApi.createPost ContextApi.rendered_updatePost
         ContextApi.rendered_deletePost.

Definition recoil_hook : UsePostsReturn :=
  mkHook Recoil.createPost Recoil.updatePost Recoil.deletePost.

Definition redux_hook : UsePostsReturn :=
  mkHook Redux.createPost Redux.rendered_updatePost Redux.rendered_deletePost.

(** A user action together with what its remote call answers: the clock
    value read by [createPost], the arguments, and the record the server
    returns. *)
Inductive Op : Type :=
| OpCreate (tempId : Z) (data : PostData) (reply : Post)
| OpUpdate (i : Z) (data : PartialPost) (reply : Post)
| OpDelete (i : Z).

(** The states an observer sees while one operation runs alone: after the
    synchronous (optimistic) part and after the continuation. *)
Definition observe {R A} (a : Async R A) (o : Outcome R) : list PostsState :=
  match a with
  | Settled s _ => [s]
  | Awaiting s _ resume => [s; fst (resume o s)]
  end.

Definition run_op (h : UsePostsReturn) (op : Op) (s : PostsState)
  : list PostsState :=
  match op with
  | OpCreate t data reply => observe (createPost h t data s) (Resolved reply)
  | OpUpdate i data reply => observe (updatePost h i data s) (Resolved reply)
  | OpDelete i => observe (deletePost h i s) (Resolved tt)
  end.

(** All observable states of a sequence of operations, each one started
    when the previous one has completed. *)
Fixpoint trace (h : UsePostsReturn) (ops : list Op) (s : PostsState)
  : list PostsState :=
  match ops with
  | [] => []
  | op :: rest =>
      let seen := run_op h op s in
      seen ++ trace h rest (last seen s)
  end.

Definition unique_ids (s : PostsState) : Prop := NoDup (ids (posts s)).

(** The ids an operation brings in are new: the temporary id and the id of
    the created record are not in the collection (and differ from each
    other); an update's data and the server's answer keep the id of the
    updated record or use an id that is not in the collection. *)
Definition brings_new_ids (op : Op) (s : PostsState) : Prop :=
  match op with
  | OpCreate t _ reply =>
      ~ In t (ids (posts s)) /\ ~ In (id reply) (ids (posts s)) /\ id reply <> t
  | OpUpdate i data reply =>
      (or_else (p_id data) i = i \/ ~ In (or_else (p_id data) i) (ids (posts s)))
      /\ (id reply = i \/ ~ In (id reply) (ids (posts s)))
  | OpDelete _ => True
  end.

Fixpoint all_new_ids (h : UsePostsReturn) (ops : list Op) (s : PostsState)
  : Prop :=
  match ops with
  | [] => True
  | op :: rest =>
      brings_new_ids op s /\ all_new_ids h rest (last (run_op h op s) s)
  end.

(* ================================================================= *)
(** ** Notions used in the statements *)

(** [a] may stand before [b] in ascending-id order. *)
Definition id_le (a b : Post) : Prop := id a <= id b.

(** Two operations behave alike: they settle alike, or suspend in the same
    state on the same call and continue alike from every outcome and every
    state they may be resumed on. *)
Definition same_behaviour {R A} (a b : Async R A) : Prop :=
  match a, b with
  | Settled s c, Settled s' c' => s = s' /\ c = c'
  | Awaiting s call k, Awaiting s' call' k' =>
      s = s' /\ call = call' /\ forall o cur, k o cur = k' o cur
  | _, _ => False
  end.

(** A hook keeps the ids distinct through every observable state of one
    operation that brings new ids only. *)
Definition keeps_ids_unique (h : UsePostsReturn) : Prop :=
  forall op s, unique_ids s -> brings_new_ids op s ->
               Forall unique_ids (run_op h op s).

(* ================================================================= *)
(** ** Sample data *)

Module Sample.
Definition post3 : Post := mkPost 3 1 "three" "c".
Definition post5 : Post := mkPost 5 1 "X" "e".
Definition post7 : Post := mkPost 7 2 "seven" "g".

(** A store holding the ids 3, 5, 7. *)
Definition stored : PostsState := mkState [post3; post5; post7] false None.

(** [{ title: "A", body: "B", userId: 1 }] and the server's record for it. *)
Definition draft : PostData := mkPostData 1 "A" "B".
Definition served : Post := mkPost 101 1 "A" "B".

(** A value of [Date.now()]. *)
Definition clock : Z := 1700000000000.

Definition retitle : PartialPost := mkPartial None None (Some "Y") None.

Definition timeout : Js.Value := Js.new_Error "Request timeout. Please try again.".

(** A create, an update of the title of 5 and a delete of 3, all
    confirmed by the server. *)
Definition session : list Op :=
  [ OpCreate clock draft served;
    OpUpdate 5 retitle (mkPost 5 1 "Y" "e");
    OpDelete 3 ].

(** Two creates, a millisecond apart, that the server both numbers 101. *)
Definition two_creates : list Op :=
  [ OpCreate clock draft served;
    OpCreate (clock + 1) draft served ].
End Sample.

(** Splits [Forall P [s1; s2]] (or [Forall P [s]]) into its states. *)
Ltac each_state :=
  match goal with
  | |- Forall _ [_; _] =>
      apply Forall_cons; [| apply Forall_cons; [| apply Forall_nil]]
  | |- Forall _ [_] => apply Forall_cons; [| apply Forall_nil]
  end.

(* ================================================================= *)
(** ** Operations that overlap *)

(** The operation resumed on [cur], the state the store is in when the
    awaited call settles: other operations may have run since it
    suspended.  An operation that settled at once has nothing to resume. *)
Definition resume_on {R A} (a : Async R A) (o : Outcome R) (cur : PostsState)
  : PostsState * Completion A :=
  match a with
  | Settled _ c => (cur, c)
  | Awaiting _ _ resume => resume o cur
  end.

(* ================================================================= *)
(** ** redux-toolkit: the reducers of the [fetchPosts] thunk *)

Module ReduxFetch.

(** [fetchPosts.pending] *)
Definition pending (s : PostsState) : PostsState :=
  mkState (posts s) true None.

(** [fetchPosts.fulfilled] *)
Definition fulfilled (payload : list Post) (s : PostsState) : PostsState :=
  mkState payload false (error s).

(** [fetchPosts.rejected], on the [action.error] of the rejected action. *)
Definition rejected (action_error : Js.Value) (s : PostsState) : PostsState :=
  mkState (posts s) false (Some (Js.as_Error action_error "Failed to fetch posts")).

(** [dispatch(fetchPosts())] of the hook's effect: the thunk hands the
    reducer the serialized form of what [postsApi.getAll] rejected with. *)
Definition fetchPosts (s : PostsState) : Async (list Post) unit :=
  Awaiting (pending s) CallGetAll (fun o cur =>
    match o with
    | Resolved data => (fulfilled data cur, Returned tt)
    | Rejected err => (rejected (Redux.miniSerializeError err) cur, Returned tt)
    end).

End ReduxFetch.

(* ================================================================= *)
(** ** jotai: the [usePosts] hook *)

Module Jotai.

(** The atoms [postsAtom], [loadingAtom], [errorAtom] are the fields of
    [PostsState]; [captured] is [posts] of the render that made the
    callback. *)

Definition fetchPosts (s : PostsState) : Async (list Post) unit :=
  (* setLoading(true); setError(null) *)
  let s1 := mkState (posts s) true None in
  Awaiting s1 CallGetAll (fun o cur =>
    match o with
    | Resolved data => (mkState data false (error cur), Returned tt)
    | Rejected err =>
        let e := Js.as_Error err "Failed to fetch posts" in
        (mkState (posts cur) false (Some e), Returned tt)
    end).

Definition createPost (tempId : Z) (data : PostData) (s : PostsState)
  : Async Post Post :=
  let optimisticPost := spread_create tempId data in
  let s1 := with_posts s (optimisticPost :: posts s) in
  Awaiting s1 (CallCreate data) (fun o cur =>
    match o with
    | Resolved newPost =>
        (with_posts cur
           (map (fun p => if has_id tempId p then newPost else p) (posts cur)),
         Returned newPost)
    | Rejected err =>
        let cur1 := with_posts cur (filter (lacks_id tempId) (posts cur)) in
        let e := Js.as_Error err "Failed to create post" in
        (with_error cur1 (Some e), Threw e)
    end).

Definition updatePost (captured : list Post) (i : Z) (data : PartialPost)
  (s : PostsState) : Async Post Post :=
  match find (has_id i) captured with
  | None => Settled s (Threw (Js.new_Error "Post not found"))
  | Some originalPost =>
      let s1 :=
        with_posts s
          (map (fun p => if has_id i p then spread_merge p data else p)
               (posts s)) in
      Awaiting s1 (CallUpdate i data) (fun o cur =>
        match o with
        | Resolved updatedPost =>
            (with_posts cur
               (map (fun p => if has_id i p then updatedPost else p)
                    (posts cur)),
             Returned updatedPost)
        | Rejected err =>
            let cur1 :=
              with_posts cur
                (map (fun p => if has_id i p then originalPost else p)
                     (posts cur)) in
            let e := Js.as_Error err "Failed to update post" in
            (with_error cur1 (Some e), Threw e)
        end)
  end.

Definition deletePost (captured : list Post) (i : Z) (s : PostsState)
  : Async unit unit :=
  match find (has_id i) captured with
  | None => Settled s (Threw (Js.new_Error "Post not found"))
  | Some postToDelete =>
      let s1 := with_posts s (filter (lacks_id i) (posts s)) in
      Awaiting s1 (CallDelete i) (fun o cur =>
        match o with
        | Resolved _ => (cur, Returned tt)
        | Rejected err =>
            let cur1 :=
              with_posts cur (Js.sort by_id (posts cur ++ [postToDelete])) in
            let e := Js.as_Error err "Failed to delete post" in
            (with_error cur1 (Some e), Threw e)
        end)
  end.

End Jotai.

(** The jotai hook in the render whose state is [s]. *)
Definition jotai_hook : UsePostsReturn :=
  mkHook Jotai.createPost
         (fun i data s => Jotai.updatePost (posts s) i data s)
         (fun i s => Jotai.deletePost (posts s) i s).

(* ================================================================= *)
(** ** [usePostEditor] (packages/hooks) *)

Module usePostEditor.

(** ['success' | 'error'] *)
Inductive ToastType : Type := success | failure.

(** The data of the form ([Omit<Post, 'id'>]) handed to
    [onUpdate(id, data: Partial<Post>)]: every field but [id] is there. *)
Definition as_partial (data : PostData) : PartialPost :=
  mkPartial None (Some (d_userId data)) (Some (d_title data))
            (Some (d_body data)).

Definition startEditing (post : Post) : option Post := Some post.
Definition cancelEditing : option Post := None.

(** The store call [submitPost] awaits: [onUpdate(editingPost.id, data)]
    when a post is being edited, [onCreate(data)] otherwise. *)
Definition submit_call (h : UsePostsReturn) (editingPost : option Post)
  (tempId : Z) (data : PostData) (s : PostsState) : Async Post Post :=
  match editingPost with
  | Some p => updatePost h (id p) (as_partial data) s
  | None => createPost h tempId data s
  end.

(** What [submitPost] leaves behind once the store call has completed:
    the post being edited, the message passed to [onSuccess] or [onError],
    and its own completion. *)
Record Submitted : Type := mkSubmitted {
  editing_after : option Post;
  toast : string * ToastType;
  completion : Completion unit
}.

Definition submit_settle (editingPost : option Post) (c : Completion Post)
  : Submitted :=
  match c with
  | Returned _ =>
      mkSubmitted None
        (match editingPost with
         | Some _ => "Post updated successfully!"
         | None => "Post created successfully!"
         end, success)
        (Returned tt)
  | Threw err =>
      mkSubmitted editingPost
        (match editingPost with
         | Some _ => "Failed to update post"
         | None => "Failed to create post"
         end, failure)
        (Threw err)
  end.

(** [submitPost(data)] run to completion: the store's state and what the
    editor is left with. *)
Definition submitPost (h : UsePostsReturn) (editingPost : option Post)
  (tempId : Z) (data : PostData) (s : PostsState) (o : Outcome Post)
  : PostsState * Submitted :=
  let a := submit_call h editingPost tempId data s in
  (final_state a o, submit_settle editingPost (result a o)).

End usePostEditor.

(* ================================================================= *)
(** ** The HTTP client of packages/api: interceptor and [getById] *)

Module ApiClient.

(** [error.response] *)
Record Response : Type := mkResponse {
  status : Z;
  statusText : string
}.

(** The [AxiosError] the response interceptor receives. *)
Record AxiosError : Type := mkAxiosError {
  code : option string;
  response : option Response;
  request : bool;          (* whether [error.request] is set *)
  message : string
}.

(** How the HTTP request ends before the interceptor sees it. *)
Inductive Transport (R : Type) : Type :=
| Answered (data : R)
| Failed (e : AxiosError).
Arguments Answered {R} data.
Arguments Failed {R} e.

(** A status code in a template string. *)
Definition Number_toString (n : Z) : string :=
  NilZero.string_of_int (Z.to_int n).

Definition is_code (c : string) (e : AxiosError) : bool :=
  match code e with
  | Some c' => String.eqb c' c
  | None => false
  end.

(** The rejection handler of [apiClient.interceptors.response.use]: what
    it throws. *)
Definition interceptor (e : AxiosError) : Js.Value :=
  if is_code "ECONNABORTED" e then
    Js.new_Error "Request timeout. Please try again."
  else
    match response e with
    | Some r =>
        Js.new_Error ("Server error: " ++ Number_toString (status r)
                        ++ " " ++ statusText r)
    | None =>
        if request e then
          Js.new_Error "Network error. Please check your connection."
        else Js.ErrorObject "AxiosError" (message e)
    end.

(** [await apiClient.get/post/put/delete(...)] as the methods of
    [postsApi] see it. *)
Definition awaited {R} (t : Transport R) : Outcome R :=
  match t with
  | Answered data => Resolved data
  | Failed e => Rejected (interceptor e)
  end.

(** [postsApi.getById] *)
Definition getById (http : Outcome Post) : Outcome Post :=
  match http with
  | Resolved data => Resolved data
  | Rejected err =>
      Rejected (Js.new_Error
                  (match err with
                   | Js.ErrorObject _ m => m
                   | Js.NonError _ => ERROR_MESSAGES.POST_NOT_FOUND
                   end))
  end.

End ApiClient.

(* ================================================================= *)
(** ** [isNetworkError] (packages/utils) *)

Module Utils.

(** [s.includes(sub)] *)
Fixpoint includes (s sub : string) : bool :=
  if String.prefix sub s then true
  else
    match s with
    | EmptyString => false
    | String _ rest => includes rest sub
    end.

Definition isNetworkError (error : Js.Value) : bool :=
  match error with
  | Js.ErrorObject _ m =>
      includes m "Network" || includes m "timeout" || includes m "ECONNREFUSED"
  | Js.NonError _ => false
  end.

End Utils.

(* ================================================================= *)
(** ** [Pagination] and the paging of [PostList] (packages/ui) *)

Module Pagination.

(** [Math.ceil(totalItems / itemsPerPage)] for a count of items and a
    positive page size. *)
Definition totalPages (totalItems itemsPerPage : Z) : Z :=
  (totalItems + itemsPerPage - 1) / itemsPerPage.

(** Whether the component renders anything. *)
Definition rendered (totalItems itemsPerPage : Z) : bool :=
  negb ((totalPages totalItems itemsPerPage <=? 1) || (totalItems =? 0)).

(** [handlePageChange(page)]: the page passed to [onPageChange], if any. *)
Definition handlePageChange (currentPage totalPages page : Z) : option Z :=
  if (1 <=? page) && (page <=? totalPages) && negb (page =? currentPage)
  then Some page else None.

(** An entry of [pages: (number | string)[]]. *)
Inductive Entry : Type :=
| PageNumber (n : Z)
| EllipsisStart
| EllipsisEnd.

(** [for (let i = startPage; i <= endPage; i++) pages.push(i)] *)
Definition range (startPage endPage : Z) : list Z :=
  map (fun k => startPage + Z.of_nat k)
      (seq 0 (Z.to_nat (endPage - startPage + 1))).

Definition startPage (currentPage totalPages maxVisiblePages : Z) : Z :=
  let halfVisible := maxVisiblePages / 2 in
  if currentPage >? totalPages - halfVisible
  then Z.max 1 (totalPages - maxVisiblePages + 1)
  else Z.max 1 (currentPage - halfVisible).

Definition endPage (currentPage totalPages maxVisiblePages : Z) : Z :=
  let halfVisible := maxVisiblePages / 2 in
  if currentPage <=? halfVisible
  then Z.min maxVisiblePages totalPages
  else Z.min totalPages (currentPage + halfVisible).

Definition getVisiblePages (currentPage totalPages maxVisiblePages : Z)
  : list Entry :=
  let first := startPage currentPage totalPages maxVisiblePages in
  let last := endPage currentPage totalPages maxVisiblePages in
  (if first >? 1
   then PageNumber 1 :: (if first >? 2 then [EllipsisStart] else [])
   else [])
  ++ map PageNumber (range first last)
  ++ (if last <? totalPages
      then (if last <? totalPages - 1 then [EllipsisEnd] else [])
           ++ [PageNumber totalPages]
      else []).

(** The page numbers among the entries, in the order of the buttons. *)
Fixpoint numbers (pages : list Entry) : list Z :=
  match pages with
  | [] => []
  | PageNumber n :: rest => n :: numbers rest
  | _ :: rest => numbers rest
  end.

(** "Showing [startItem] to [endItem] of [totalItems] results" *)
Definition startItem (currentPage itemsPerPage : Z) : Z :=
  (currentPage - 1) * itemsPerPage + 1.

Definition endItem (currentPage itemsPerPage totalItems : Z) : Z :=
  Z.min (currentPage * itemsPerPage) totalItems.

End Pagination.

Module PostList.

(** [arr.slice(start, end)] for integer arguments. *)
Definition slice {A} (arr : list A) (startIndex endIndex : Z) : list A :=
  let len := Z.of_nat (List.length arr) in
  let from := if startIndex <? 0 then Z.max (len + startIndex) 0
              else Z.min startIndex len in
  let to := if endIndex <? 0 then Z.max (len + endIndex) 0
            else Z.min endIndex len in
  firstn (Z.to_nat (to - from)) (skipn (Z.to_nat from) arr).

(** [paginatedPosts] *)
Definition paginatedPosts (filteredPosts : list Post)
  (currentPage itemsPerPage : Z) : list Post :=
  let startIndex := (currentPage - 1) * itemsPerPage in
  let endIndex := startIndex + itemsPerPage in
  slice filteredPosts startIndex endIndex.

(** Whether the pager is shown under the list. *)
Definition shows_pagination (filteredPosts : list Post) (itemsPerPage : Z)
  : bool :=
  Z.of_nat (List.length filteredPosts) >? itemsPerPage.

End PostList.

(* ================================================================= *)
(** ** Facts about the array functions *)

Section ArrayFacts.

Lemma has_id_true (i : Z) (p : Post) : has_id i p = true <-> id p = i.
Proof. unfold has_id. apply Z.eqb_eq. Qed.

Lemma has_id_false (i : Z) (p : Post) : has_id i p = false <-> id p <> i.
Proof. unfold has_id. apply Z.eqb_neq. Qed.

Lemma lacks_id_true (i : Z) (p : Post) : lacks_id i p = true <-> id p <> i.
Proof.
  unfold lacks_id. rewrite negb_true_iff. apply Z.eqb_neq.
Qed.

(** [find] succeeds exactly on the ids of the array. *)
Lemma find_has_id_none (i : Z) (ps : list Post) :
  find (has_id i) ps = None <-> ~ In i (ids ps).
Proof.
  induction ps as [|p ps IH]; simpl.
  - tauto.
  - destruct (has_id i p) eqn:E.
    + apply has_id_true in E. split; [discriminate | intros H; exfalso; auto].
    + apply has_id_false in E. rewrite IH. tauto.
Qed.

(** With distinct ids the record carrying an id is the one [find]
    returns. *)
Lemma find_has_id_unique (ps : list Post) (r : Post) :
  NoDup (ids ps) -> In r ps -> find (has_id (id r)) ps = Some r.
Proof.
  induction ps as [|p ps IH]; simpl; intros ND HIn; [tauto|].
  inversion ND as [|x l Hx ND']; subst.
  destruct HIn as [-> | HIn].
  - unfold has_id. rewrite Z.eqb_refl. reflexivity.
  - destruct (has_id (id r) p) eqn:E.
    + apply has_id_true in E. exfalso. apply Hx. rewrite E.
      apply in_map. exact HIn.
    + auto.
Qed.

Lemma ids_app (l1 l2 : list Post) : ids (l1 ++ l2) = ids l1 ++ ids l2.
Proof. apply map_app. Qed.

(** Filtering keeps a sub-list of the ids. *)
Lemma ids_filter_in (f : Post -> bool) (ps : list Post) (x : Z) :
  In x (ids (filter f ps)) -> In x (ids ps).
Proof.
  unfold ids. rewrite !in_map_iff. intros [p [Hp HIn]].
  apply filter_In in HIn. exists p. tauto.
Qed.

Lemma NoDup_ids_filter (f : Post -> bool) (ps : list Post) :
  NoDup (ids ps) -> NoDup (ids (filter f ps)).
Proof.
  induction ps as [|p ps IH]; simpl; intros ND; [constructor|].
  inversion ND as [|x l Hx ND']; subst.
  destruct (f p); simpl; auto.
  constructor; auto. intros HIn. apply Hx. eapply ids_filter_in; eauto.
Qed.

(** Removing an id that is not there changes nothing. *)
Lemma filter_lacks_absent (i : Z) (ps : list Post) :
  ~ In i (ids ps) -> filter (lacks_id i) ps = ps.
Proof.
  induction ps as [|p ps IH]; simpl; intros H; [reflexivity|].
  assert (E : lacks_id i p = true) by (apply lacks_id_true; intuition).
  rewrite E. f_equal. apply IH. tauto.
Qed.

(** Replacing under an id that is not there changes nothing. *)
Lemma map_replace_absent (i : Z) (g : Post -> Post) (ps : list Post) :
  ~ In i (ids ps) -> map (fun p => if has_id i p then g p else p) ps = ps.
Proof.
  induction ps as [|p ps IH]; simpl; intros H; [reflexivity|].
  assert (E : has_id i p = false) by (apply has_id_false; intuition).
  rewrite E. f_equal. apply IH. tauto.
Qed.

(** The ids after replacing the records under [i] by records under [j]. *)
Lemma ids_map_replace (i j : Z) (g : Post -> Post) (ps : list Post) :
  (forall p, id p = i -> id (g p) = j) ->
  ids (map (fun p => if has_id i p then g p else p) ps)
  = map (fun x => if x =? i then j else x) (ids ps).
Proof.
  intros Hg. unfold ids. rewrite !map_map. apply map_ext.
  intros p. unfold has_id. destruct (id p =? i) eqn:E; auto.
  apply Z.eqb_eq in E. auto.
Qed.

Lemma in_rename (i j x : Z) (l : list Z) :
  In x (map (fun y => if y =? i then j else y) l) ->
  (x = j /\ In i l) \/ (x <> i /\ In x l).
Proof.
  rewrite in_map_iff. intros [y [Hy HIn]].
  destruct (y =? i) eqn:E.
  - apply Z.eqb_eq in E. subst. auto.
  - apply Z.eqb_neq in E. subst. auto.
Qed.

Lemma NoDup_rename (i j : Z) (l : list Z) :
  NoDup l -> (j = i \/ ~ In j l) ->
  NoDup (map (fun y => if y =? i then j else y) l).
Proof.
  induction l as [|x l IH]; simpl; intros ND Hj; [constructor|].
  inversion ND as [|x' l' Hx ND']; subst.
  constructor.
  - intros HIn. apply in_rename in HIn.
    destruct (x =? i) eqn:E.
    + apply Z.eqb_eq in E. subst x.
      destruct HIn as [[_ Hi] | [Hne Hi]]; [tauto|].
      destruct Hj as [-> | Hj]; tauto.
    + apply Z.eqb_neq in E.
      destruct HIn as [[-> Hi] | [Hne Hi]]; [|tauto].
      destruct Hj as [-> | Hj]; tauto.
  - apply IH; auto. tauto.
Qed.

Lemma NoDup_ids_map_replace (i j : Z) (g : Post -> Post) (ps : list Post) :
  (forall p, id p = i -> id (g p) = j) ->
  NoDup (ids ps) -> (j = i \/ ~ In j (ids ps)) ->
  NoDup (ids (map (fun p => if has_id i p then g p else p) ps)).
Proof.
  intros Hg ND Hj. rewrite ids_map_replace with (j := j) by exact Hg.
  apply NoDup_rename; assumption.
Qed.

End ArrayFacts.

(* ================================================================= *)
(** ** Facts about [sort] with the comparator [(a, b) => a.id - b.id] *)

Section SortFacts.

Lemma by_id_le (a b : Post) : (by_id a b <=? 0) = true <-> id_le a b.
Proof. unfold by_id, id_le. rewrite Z.leb_le. lia. Qed.

Lemma insert_perm (x : Post) (l : list Post) :
  Permutation (Js.insert by_id x l) (x :: l).
Proof.
  induction l as [|y l IH]; simpl; [reflexivity|].
  destruct (by_id x y <=? 0); [reflexivity|].
  rewrite IH. apply perm_swap.
Qed.

Lemma sort_perm (l : list Post) : Permutation (Js.sort by_id l) l.
Proof.
  induction l as [|x l IH]; simpl; [reflexivity|].
  unfold Js.sort in *. simpl. rewrite insert_perm. constructor. exact IH.
Qed.

Lemma insert_sorted (x : Post) (l : list Post) :
  StronglySorted id_le l -> StronglySorted id_le (Js.insert by_id x l).
Proof.
  induction l as [|y l IH]; simpl; intros SS.
  - repeat constructor.
  - inversion SS as [|y' l' SS' Hall]; subst.
    destruct (by_id x y <=? 0) eqn:E.
    + apply by_id_le in E. constructor; [exact SS|].
      constructor; [exact E|].
      eapply Forall_impl; [|exact Hall].
      unfold id_le in *. intros; lia.
    + assert (Hyx : id_le y x).
      { unfold by_id, id_le in *. apply Z.leb_gt in E. lia. }
      constructor; [auto|].
      eapply Permutation_Forall; [symmetry; apply insert_perm|].
      constructor; assumption.
Qed.

Lemma sort_sorted (l : list Post) : StronglySorted id_le (Js.sort by_id l).
Proof.
  induction l as [|x l IH]; simpl; [constructor|].
  apply insert_sorted. exact IH.
Qed.

(** Inserting in front of an array whose ids are all at least as large. *)
Lemma insert_head (x : Post) (l : list Post) :
  Forall (id_le x) l -> Js.insert by_id x l = x :: l.
Proof.
  destruct l as [|y l]; simpl; [reflexivity|].
  intros H. inversion H as [|y' l' Hxy _]; subst.
  apply by_id_le in Hxy. rewrite Hxy. reflexivity.
Qed.

(** Sorting an ascending array leaves it as it is. *)
Lemma sort_ascending (l : list Post) :
  StronglySorted id_le l -> Js.sort by_id l = l.
Proof.
  induction l as [|x l IH]; simpl; intros SS; [reflexivity|].
  inversion SS as [|x' l' SS' Hall]; subst.
  unfold Js.sort in *. simpl. rewrite IH by assumption.
  apply insert_head. exact Hall.
Qed.


Lemma ascending_tail (l1 l2 : list Post) :
  StronglySorted id_le (l1 ++ l2) -> StronglySorted id_le l2.
Proof.
  induction l1 as [|x l1 IH]; simpl; intros SS; [exact SS|].
  inversion SS; subst. auto.
Qed.

(** Where the sort leaves two records of which the later has the
    smaller id: the smaller id first. *)
Lemma sorted_order (l : list Post) (a b : Post) :
  StronglySorted id_le l -> In a l -> In b l -> id b < id a ->
  exists l1 l2 l3, l = l1 ++ b :: l2 ++ a :: l3.
Proof.
  induction l as [|x l IH]; simpl; intros SS Ha Hb Hlt; [tauto|].
  inversion SS as [|x' l' SS' Hall]; subst.
  rewrite Forall_forall in Hall.
  destruct Hb as [-> | Hb].
  - destruct Ha as [-> | Ha]; [lia|].
    apply in_split in Ha. destruct Ha as [l2 [l3 ->]].
    exists [], l2, l3. reflexivity.
  - destruct Ha as [-> | Ha].
    + specialize (Hall _ Hb). unfold id_le in Hall. lia.
    + destruct (IH SS' Ha Hb Hlt) as [l1 [l2 [l3 ->]]].
      exists (x :: l1), l2, l3. reflexivity.
Qed.

(** With distinct ids, [filter] takes out exactly the record under the
    id, and putting it back at the end gives the same records. *)
Lemma filter_lacks_split (ps : list Post) (r : Post) :
  NoDup (ids ps) -> In r ps ->
  exists l1 l2, ps = l1 ++ r :: l2 /\
                filter (lacks_id (id r)) ps = l1 ++ l2.
Proof.
  intros ND HIn. apply in_split in HIn. destruct HIn as [l1 [l2 ->]].
  exists l1, l2. split; [reflexivity|].
  rewrite ids_app in ND. simpl in ND.
  pose proof (NoDup_remove_2 _ _ _ ND) as Hnot.
  rewrite filter_app. simpl.
  assert (E : lacks_id (id r) r = false).
  { unfold lacks_id. rewrite Z.eqb_refl. reflexivity. }
  rewrite E. f_equal; apply filter_lacks_absent;
    intros H; apply Hnot; apply in_or_app; auto.
Qed.

Lemma filter_lacks_perm (ps : list Post) (r : Post) :
  NoDup (ids ps) -> In r ps ->
  Permutation (filter (lacks_id (id r)) ps ++ [r]) ps.
Proof.
  intros ND HIn.
  destruct (filter_lacks_split ps r ND HIn) as [l1 [l2 [E1 E2]]].
  rewrite E2. rewrite E1 at 1.
  rewrite <- app_assoc. apply Permutation_app_head.
  symmetry. apply Permutation_cons_append.
Qed.

End SortFacts.

(* ================================================================= *)
(** ** The sort is the stable ascending rearrangement *)

Section SortModel.

Lemma has_id_self (p : Post) : has_id (id p) p = true.
Proof. unfold has_id. apply Z.eqb_refl. Qed.

(** Records that compare equal keep their relative order. *)
Lemma insert_stable (k : Z) (x : Post) (l : list Post) :
  filter (has_id k) (Js.insert by_id x l) = filter (has_id k) (x :: l).
Proof.
  induction l as [|y l IH]; simpl; [reflexivity|].
  destruct (by_id x y <=? 0) eqn:E; [reflexivity|].
  simpl in *. rewrite IH.
  destruct (has_id k x) eqn:Ex; [|reflexivity].
  destruct (has_id k y) eqn:Ey; [|reflexivity].
  apply has_id_true in Ex, Ey. apply Z.leb_gt in E. unfold by_id in E. lia.
Qed.

Lemma sort_stable (k : Z) (l : list Post) :
  filter (has_id k) (Js.sort by_id l) = filter (has_id k) l.
Proof.
  induction l as [|x l IH]; [reflexivity|].
  unfold Js.sort in *. simpl fold_right. rewrite insert_stable.
  simpl. rewrite IH. reflexivity.
Qed.

Lemma filter_has_id_in (k : Z) (l : list Post) (p : Post) :
  In p (filter (has_id k) l) -> In p l /\ id p = k.
Proof.
  intros H. apply filter_In in H. destruct H as [H1 H2].
  apply has_id_true in H2. auto.
Qed.

(** Two ascending arrays with the same records under every id, in the
    same order under every id, are the same array. *)
Lemma stable_ascending_unique (l1 l2 : list Post) :
  StronglySorted id_le l1 -> StronglySorted id_le l2 ->
  (forall k, filter (has_id k) l1 = filter (has_id k) l2) ->
  l1 = l2.
Proof.
  revert l2. induction l1 as [|a l1 IH]; intros l2 S1 S2 Hk.
  - destruct l2 as [|b l2]; [reflexivity|].
    specialize (Hk (id b)). simpl in Hk.
    rewrite has_id_self in Hk. discriminate.
  - destruct l2 as [|b l2].
    + specialize (Hk (id a)). simpl in Hk.
      rewrite has_id_self in Hk. discriminate.
    + inversion S1 as [|a' l1' S1' H1]; subst.
      inversion S2 as [|b' l2' S2' H2]; subst.
      rewrite Forall_forall in H1, H2.
      assert (Hids : id a = id b).
      { assert (Ha : In a (b :: l2)).
        { pose proof (Hk (id a)) as E. simpl in E.
          rewrite has_id_self in E.
          assert (HIn : In a (filter (has_id (id a)) (b :: l2)))
            by (simpl; rewrite <- E; left; reflexivity).
          apply filter_has_id_in in HIn. tauto. }
        assert (Hb : In b (a :: l1)).
        { pose proof (Hk (id b)) as E. simpl in E.
          rewrite has_id_self in E.
          assert (HIn : In b (filter (has_id (id b)) (a :: l1)))
            by (simpl; rewrite E; left; reflexivity).
          apply filter_has_id_in in HIn. tauto. }
        destruct Ha as [Ha | Ha]; [congruence|].
        destruct Hb as [Hb | Hb]; [congruence|].
        pose proof (H1 _ Hb) as L1. pose proof (H2 _ Ha) as L2.
        unfold id_le in *. lia. }
      assert (Hab : a = b).
      { pose proof (Hk (id a)) as E. simpl in E.
        rewrite has_id_self in E. rewrite Hids in E at 2.
        rewrite has_id_self in E. congruence. }
      subst b. f_equal. apply IH; auto.
      intros k. specialize (Hk k). simpl in Hk.
      destruct (has_id k a); congruence.
Qed.

(** So any array that is an ascending stable rearrangement of [l] is
    the one [Js.sort] computes, whatever algorithm produced it. *)
Lemma sort_determined (l sorted : list Post) :
  StronglySorted id_le sorted ->
  (forall k, filter (has_id k) sorted = filter (has_id k) l) ->
  sorted = Js.sort by_id l.
Proof.
  intros SS Hk. apply stable_ascending_unique; [exact SS | apply sort_sorted |].
  intros k. rewrite sort_stable. apply Hk.
Qed.

End SortModel.

(* ================================================================= *)
(** ** Fetch *)

(** C7.  Whatever the store holds, a fetch clears [error] (and raises
    [loading]) before it calls the remote [getAll], and when the call
    succeeds with the sequence [S] the collection is exactly [S], in the
    server's order, and [loading] is false; in the zustand store and in the
    context-api provider alike. *)
Theorem fetch_replaces_collection (s : PostsState) (S : list Post) :
  let z := Zustand.fetchPosts s in
  let c := ContextApi.fetchPosts s in
  let served := postsApi.getAll (Resolved S) in
  (error (immediate z) = None /\ loading (immediate z) = true /\
   remote_call z = Some CallGetAll /\
   posts (final_state z served) = S /\
   loading (final_state z served) = false /\
   error (final_state z served) = None)
  /\
  (error (immediate c) = None /\ loading (immediate c) = true /\
   remote_call c = Some CallGetAll /\
   posts (final_state c served) = S /\
   loading (final_state c served) = false /\
   error (final_state c served) = None).
Proof.
  cbv zeta. unfold final_state. simpl. repeat split; reflexivity.
Qed.

(* ================================================================= *)
(** ** Operations on an id that is not in the collection *)

(** C6.  When no record of the collection has id [i], [updatePost] and
    [deletePost] settle at once: no remote call is issued, the state
    (records and error) is the one they started from, and the completion
    is the thrown "Post not found" error. *)
Theorem absent_id_fails_without_remote_call
  (s : PostsState) (i : Z) (data : PartialPost) :
  ~ In i (ids (posts s)) ->
  let u := Zustand.updatePost i data s in
  let d := Zustand.deletePost i s in
  let not_found := Js.new_Error ERROR_MESSAGES.POST_NOT_FOUND in
  (remote_call u = None /\ immediate u = s /\
   forall o, complete u o = (s, Threw not_found))
  /\
  (remote_call d = None /\ immediate d = s /\
   forall o, complete d o = (s, Threw not_found)).
Proof.
  intros Habs. apply find_has_id_none in Habs.
  cbv zeta. unfold Zustand.updatePost, Zustand.deletePost.
  rewrite Habs. simpl. repeat split; reflexivity.
Qed.

Lemma absent_id_fails_without_remote_call_witness :
  ~ In 4 (ids (posts Sample.stored)) /\
  remote_call (Zustand.updatePost 4 Sample.retitle Sample.stored) = None /\
  remote_call (Zustand.deletePost 4 Sample.stored) = None /\
  complete (Zustand.deletePost 4 Sample.stored) (Resolved tt)
  = (Sample.stored, Threw (Js.new_Error "Post not found")).
Proof.
  assert (H : ~ In 4 (ids (posts Sample.stored))).
  { simpl. intros [H | [H | [H | []]]]; discriminate. }
  split; [exact H|].
  pose proof (absent_id_fails_without_remote_call Sample.stored 4 Sample.retitle H)
    as [[U1 _] [D1 [_ D3]]].
  split; [exact U1|]. split; [exact D1|]. exact (D3 (Resolved tt)).
Defined.

(** C10.  The error thrown for an absent id is a plain [Error] whose
    message is exactly "Post not found"; the error thrown when the remote
    call of [postsApi] fails is a plain [Error] too (with the message of
    the failed operation): the constructor is the same and only the
    message tells them apart.  For [updatePost] and [deletePost] of the
    zustand store and of the context-api provider. *)
Theorem not_found_is_a_plain_error
  (s : PostsState) (i j : Z) (data : PartialPost)
  (http_failure : Js.Value) (o : Outcome Post) (o' : Outcome unit) :
  ~ In i (ids (posts s)) ->
  In j (ids (posts s)) ->
  let not_found := Js.ErrorObject "Error" "Post not found" in
  let update_failed := Js.ErrorObject "Error" "Failed to update post" in
  let delete_failed := Js.ErrorObject "Error" "Failed to delete post" in
  (result (Zustand.updatePost i data s) o = Threw not_found /\
   result (Zustand.deletePost i s) o' = Threw not_found /\
   result (ContextApi.rendered_updatePost i data s) o = Threw not_found /\
   result (ContextApi.rendered_deletePost i s) o' = Threw not_found)
  /\
  (result (Zustand.updatePost j data s)
          (postsApi.update (Rejected http_failure)) = Threw update_failed /\
   result (Zustand.deletePost j s)
          (postsApi.delete (Rejected http_failure)) = Threw delete_failed /\
   result (ContextApi.rendered_updatePost j data s)
          (postsApi.update (Rejected http_failure)) = Threw update_failed /\
   result (ContextApi.rendered_deletePost j s)
          (postsApi.delete (Rejected http_failure)) = Threw delete_failed)
  /\
  (Js.ctor_of not_found = Js.ctor_of update_failed /\
   Js.ctor_of not_found = Js.ctor_of delete_failed /\
   Js.message_of not_found = Some "Post not found" /\
   Js.message_of not_found <> Js.message_of update_failed /\
   Js.message_of not_found <> Js.message_of delete_failed).
Proof.
  intros Habs Hpres.
  apply find_has_id_none in Habs.
  destruct (find (has_id j) (posts s)) as [r|] eqn:Hfind;
    [| apply find_has_id_none in Hfind; contradiction].
  cbv zeta.
  unfold result, ContextApi.rendered_updatePost, ContextApi.rendered_deletePost,
    Zustand.updatePost, Zustand.deletePost,
    ContextApi.updatePost, ContextApi.deletePost.
  rewrite Habs, Hfind. simpl. repeat split; try reflexivity; discriminate.
Qed.

Lemma not_found_is_a_plain_error_witness :
  ~ In 4 (ids (posts Sample.stored)) /\
  In 5 (ids (posts Sample.stored)) /\
  result (Zustand.updatePost 4 Sample.retitle Sample.stored)
         (Resolved Sample.served)
  = Threw (Js.ErrorObject "Error" "Post not found") /\
  result (Zustand.updatePost 5 Sample.retitle Sample.stored)
         (postsApi.update (Rejected (Js.NonError "ECONNABORTED")))
  = Threw (Js.ErrorObject "Error" "Failed to update post").
Proof.
  assert (H4 : ~ In 4 (ids (posts Sample.stored))).
  { simpl. intros [H | [H | [H | []]]]; discriminate. }
  assert (H5 : In 5 (ids (posts Sample.stored))) by (simpl; auto).
  split; [exact H4|]. split; [exact H5|].
  pose proof (not_found_is_a_plain_error Sample.stored 4 5 Sample.retitle
                (Js.NonError "ECONNABORTED") (Resolved Sample.served)
                (Resolved tt) H4 H5) as [[N1 _] [[F1 _] _]].
  split; [exact N1 | exact F1].
Defined.

(* ================================================================= *)
(** ** Create *)

Lemma as_Error_of_Error (err : Js.Value) (fallback : string) :
  Js.instanceof_Error err = true -> Js.as_Error err fallback = err.
Proof. unfold Js.as_Error. intros ->. reflexivity. Qed.

Lemma has_id_placeholder (t : Z) (data : PostData) :
  has_id t (spread_create t data) = true.
Proof. unfold has_id. simpl. apply Z.eqb_refl. Qed.

Lemma lacks_id_placeholder (t : Z) (data : PostData) :
  lacks_id t (spread_create t data) = false.
Proof. unfold lacks_id. simpl. rewrite Z.eqb_refl. reflexivity. Qed.

(** In the zustand store (and, below, the provider) a successful create
    puts the placeholder first and then the server's record in its
    place, whatever the collection. *)
Lemma zustand_create_reconciles
  (s : PostsState) (t : Z) (data : PostData) (reply : Post) :
  let a := Zustand.createPost t data s in
  posts (immediate a) = spread_create t data :: posts s /\
  remote_call a = Some (CallCreate data) /\
  nth_error (posts (final_state a (Resolved reply))) 0 = Some reply /\
  List.length (posts (final_state a (Resolved reply)))
    = S (List.length (posts s)) /\
  result a (Resolved reply) = Returned reply /\
  (~ In t (ids (posts s)) ->
   posts (final_state a (Resolved reply)) = reply :: posts s).
Proof.
  cbv zeta. unfold final_state, result. simpl.
  rewrite has_id_placeholder.
  repeat split; try reflexivity.
  - simpl. rewrite length_map. reflexivity.
  - intros Hfresh. f_equal.
    apply map_replace_absent with (g := fun _ => reply). exact Hfresh.
Qed.

Lemma context_create_reconciles
  (s : PostsState) (t : Z) (data : PostData) (reply : Post) :
  let a := ContextApi.createPost t data s in
  posts (immediate a) = spread_create t data :: posts s /\
  remote_call a = Some (CallCreate data) /\
  nth_error (posts (final_state a (Resolved reply))) 0 = Some reply /\
  List.length (posts (final_state a (Resolved reply)))
    = S (List.length (posts s)) /\
  result a (Resolved reply) = Returned reply /\
  (~ In t (ids (posts s)) ->
   posts (final_state a (Resolved reply)) = reply :: posts s).
Proof. exact (zustand_create_reconciles s t data reply). Qed.

(** C2.  The recoil action reconciles over the array it was called with,
    which never held the placeholder: on the store with ids 3, 5, 7 the
    placeholder is first right after the optimistic step, the server's
    record is returned, but after the reconciliation the collection is the
    old one again and the record that was created is not in it.  The
    zustand store, on the same input, has the server's record first. *)
Theorem recoil_create_loses_the_record :
  let a := Recoil.createPost Sample.clock Sample.draft Sample.stored in
  let z := Zustand.createPost Sample.clock Sample.draft Sample.stored in
  let done := final_state a (Resolved Sample.served) in
  nth_error (posts (immediate a)) 0
    = Some (spread_create Sample.clock Sample.draft) /\
  result a (Resolved Sample.served) = Returned Sample.served /\
  posts done = [Sample.post3; Sample.post5; Sample.post7] /\
  nth_error (posts done) 0 <> Some Sample.served /\
  ~ In Sample.served (posts done) /\
  nth_error (posts (final_state z (Resolved Sample.served))) 0
    = Some Sample.served.
Proof.
  cbv zeta. vm_compute. repeat split; try discriminate.
  intros [H | [H | [H | []]]]; discriminate.
Qed.

(** C3 (as amended).  When the temporary id is not an id of the
    collection and the remote create fails, the zustand store ends with
    exactly the collection it started from, its [error] is the failure
    and the failure is thrown to the caller (the caught value itself when
    it is an [Error]). *)
Theorem create_rollback_restores
  (s : PostsState) (t : Z) (data : PostData) (err : Js.Value) :
  ~ In t (ids (posts s)) ->
  let a := Zustand.createPost t data s in
  let failure := Js.as_Error err "Failed to create post" in
  posts (immediate a) = spread_create t data :: posts s /\
  posts (final_state a (Rejected err)) = posts s /\
  error (final_state a (Rejected err)) = Some failure /\
  result a (Rejected err) = Threw failure /\
  (Js.instanceof_Error err = true -> failure = err).
Proof.
  intros Hfresh. cbv zeta. unfold final_state, result. simpl.
  rewrite lacks_id_placeholder.
  rewrite filter_lacks_absent by exact Hfresh.
  repeat split; try reflexivity.
  apply as_Error_of_Error.
Qed.

Lemma create_rollback_restores_witness :
  ~ In Sample.clock (ids (posts Sample.stored)) /\
  posts (final_state (Zustand.createPost Sample.clock Sample.draft Sample.stored)
                     (Rejected Sample.timeout))
  = [Sample.post3; Sample.post5; Sample.post7].
Proof.
  assert (H : ~ In Sample.clock (ids (posts Sample.stored))).
  { simpl. unfold Sample.clock. intros [H | [H | [H | []]]]; discriminate. }
  split; [exact H|].
  exact (proj1 (proj2 (create_rollback_restores Sample.stored Sample.clock
                         Sample.draft Sample.timeout H))).
Defined.

(** C3 as it is stated fails when the collection already holds a record
    under the temporary id, as it does when a second create reads the
    same clock value while the first is pending: the rollback filters out
    every record under that id, so the first create's placeholder is
    removed with the second's and the collection is not the one the
    second create started from. *)
Lemma create_rollback_removes_record_under_same_id :
  let pending :=
    immediate (Zustand.createPost Sample.clock Sample.draft Sample.stored) in
  let second := Zustand.createPost Sample.clock Sample.draft pending in
  let rolled_back := final_state second (Rejected Sample.timeout) in
  posts pending
  = [spread_create Sample.clock Sample.draft;
     Sample.post3; Sample.post5; Sample.post7] /\
  posts rolled_back = [Sample.post3; Sample.post5; Sample.post7] /\
  posts rolled_back <> posts pending /\
  List.length (posts rolled_back) <> List.length (posts pending).
Proof.
  cbv zeta. repeat split; try reflexivity; vm_compute; discriminate.
Qed.

(* ================================================================= *)
(** ** Update *)

Lemma map_replace_split (i : Z) (g : Post -> Post) (l1 l2 : list Post) (r : Post) :
  id r = i -> ~ In i (ids l1) -> ~ In i (ids l2) ->
  map (fun p => if has_id i p then g p else p) (l1 ++ r :: l2)
  = l1 ++ g r :: l2.
Proof.
  intros Hr H1 H2. rewrite map_app. simpl.
  assert (E : has_id i r = true) by (apply has_id_true; exact Hr).
  rewrite E. rewrite !map_replace_absent by assumption. reflexivity.
Qed.

(** With distinct ids a record of the collection splits it into what is
    before and what is after, neither holding its id. *)
Lemma split_at_record (ps : list Post) (r : Post) :
  NoDup (ids ps) -> In r ps ->
  exists l1 l2, ps = l1 ++ r :: l2 /\
                ~ In (id r) (ids l1) /\ ~ In (id r) (ids l2).
Proof.
  intros ND HIn. apply in_split in HIn. destruct HIn as [l1 [l2 ->]].
  exists l1, l2. split; [reflexivity|].
  rewrite ids_app in ND. simpl in ND.
  pose proof (NoDup_remove_2 _ _ _ ND) as Hnot.
  split; intros H; apply Hnot; apply in_or_app; auto.
Qed.

Lemma spread_merge_keeps_id (r : Post) (data : PartialPost) :
  p_id data = None \/ p_id data = Some (id r) -> id (spread_merge r data) = id r.
Proof. intros [H | H]; simpl; rewrite H; reflexivity. Qed.




(* ================================================================= *)
(** ** Delete *)

(** What the three hooks that roll a delete back by sorting leave in the
    collection when the remote delete fails. *)
Lemma delete_rollback_posts (s : PostsState) (i : Z) (r : Post) (err : Js.Value) :
  find (has_id i) (posts s) = Some r ->
  let rolled_back := Js.sort by_id (filter (lacks_id i) (posts s) ++ [r]) in
  posts (final_state (Zustand.deletePost i s) (Rejected err)) = rolled_back /\
  posts (final_state (ContextApi.rendered_deletePost i s) (Rejected err))
    = rolled_back /\
  posts (final_state (Redux.rendered_deletePost i s) (Rejected err))
    = rolled_back.
Proof.
  intros Hfind. cbv zeta.
  unfold final_state, ContextApi.rendered_deletePost, Redux.rendered_deletePost,
    Zustand.deletePost, ContextApi.deletePost, Redux.deletePost.
  rewrite Hfind. simpl. repeat split; reflexivity.
Qed.

(** The rolled-back collection: ascending, and the same records as before
    the delete. *)
Lemma rolled_back_sorted_perm (ps : list Post) (r : Post) :
  NoDup (ids ps) -> In r ps ->
  let rolled_back := Js.sort by_id (filter (lacks_id (id r)) ps ++ [r]) in
  StronglySorted id_le rolled_back /\ Permutation rolled_back ps.
Proof.
  intros ND HIn. cbv zeta. split.
  - apply sort_sorted.
  - rewrite sort_perm. apply filter_lacks_perm; assumption.
Qed.




(** The example of the collection with ids 3, 5, 7, whatever the records
    hold: deleting 5 leaves 3, 7 and a failed remote call brings back the
    very collection. *)
Lemma delete_5_of_3_5_7 (s : PostsState) (err : Js.Value) :
  ids (posts s) = [3; 5; 7] ->
  ids (posts (immediate (Zustand.deletePost 5 s))) = [3; 7] /\
  posts (final_state (Zustand.deletePost 5 s) (Rejected err)) = posts s.
Proof.
  destruct s as [ps l e]. simpl.
  destruct ps as [|a [|b [|c [|d ps]]]]; simpl; try discriminate.
  destruct a as [ia ua ta ba], b as [ib ub tb bb], c as [ic uc tc bc]. simpl.
  intros H. injection H as -> -> ->.
  split; reflexivity.
Qed.

(** C9.  The rollback of a failed delete sorts the whole collection.  In a
    collection with distinct ids holding the record to delete, take any
    record [a] standing before a record [b] of smaller id: after the
    failed delete the collection is ascending, [b] stands before [a], and
    the collection is no longer the one it was before the delete, whether
    or not [a] or [b] is the deleted record.  The zustand store, the
    context-api provider and the redux [rollbackDelete] reducer leave the
    same collection. *)
Theorem failed_delete_reorders_collection
  (s : PostsState) (i : Z) (r : Post) (err : Js.Value)
  (a b : Post) (l1 l2 l3 : list Post) :
  unique_ids s -> In r (posts s) -> id r = i ->
  posts s = l1 ++ a :: l2 ++ b :: l3 -> id b < id a ->
  let rolled_back := posts (final_state (Zustand.deletePost i s) (Rejected err)) in
  posts (final_state (ContextApi.rendered_deletePost i s) (Rejected err))
    = rolled_back /\
  posts (Redux.rollbackDelete r (Redux.optimisticDelete i s)) = rolled_back /\
  posts (final_state (Redux.rendered_deletePost i s) (Rejected err))
    = rolled_back /\
  StronglySorted id_le rolled_back /\
  (exists m1 m2 m3, rolled_back = m1 ++ b :: m2 ++ a :: m3) /\
  rolled_back <> posts s.
Proof.
  intros ND HIn Hid Hsplit Hlt. cbv zeta. subst i. unfold unique_ids in ND.
  pose proof (find_has_id_unique (posts s) r ND HIn) as Hfind.
  destruct (delete_rollback_posts s (id r) r err Hfind) as [Hz [Hc Hr]].
  cbv zeta in Hz, Hc, Hr. rewrite Hz, Hc, Hr.
  destruct (rolled_back_sorted_perm (posts s) r ND HIn) as [HS HP].
  cbv zeta in HS, HP.
  assert (Ha : In a (posts s)).
  { rewrite Hsplit. apply in_or_app. right. left. reflexivity. }
  assert (Hb : In b (posts s)).
  { rewrite Hsplit. apply in_or_app. right. right.
    apply in_or_app. right. left. reflexivity. }
  assert (Hord : exists m1 m2 m3,
             Js.sort by_id (filter (lacks_id (id r)) (posts s) ++ [r])
             = m1 ++ b :: m2 ++ a :: m3).
  { apply sorted_order; try assumption.
    - eapply Permutation_in; [symmetry; exact HP | exact Ha].
    - eapply Permutation_in; [symmetry; exact HP | exact Hb]. }
  repeat split; try reflexivity; try assumption.
  intros Heq. rewrite Heq in HS. rewrite Hsplit in HS.
  apply ascending_tail in HS.
  inversion HS as [|x l _ Hall]; subst.
  rewrite Forall_forall in Hall.
  assert (Hin : In b (l2 ++ b :: l3)) by (apply in_or_app; right; left; reflexivity).
  specialize (Hall _ Hin). unfold id_le in Hall. lia.
Qed.

Lemma failed_delete_reorders_collection_witness :
  let pending := immediate (Zustand.createPost Sample.clock Sample.draft Sample.stored) in
  let placeholder := spread_create Sample.clock Sample.draft in
  posts pending = [placeholder; Sample.post3; Sample.post5; Sample.post7] /\
  posts (final_state (Zustand.deletePost 7 pending) (Rejected Sample.timeout))
  = [Sample.post3; Sample.post5; Sample.post7; placeholder] /\
  exists m1 m2 m3,
    posts (final_state (Zustand.deletePost 7 pending) (Rejected Sample.timeout))
    = m1 ++ Sample.post3 :: m2 ++ placeholder :: m3.
Proof.
  cbv zeta. split; [reflexivity|]. split; [reflexivity|].
  set (pending := immediate (Zustand.createPost Sample.clock Sample.draft Sample.stored)).
  assert (ND : unique_ids pending).
  { unfold unique_ids. simpl. unfold Sample.clock.
    repeat constructor; simpl; intuition discriminate. }
  assert (HIn : In Sample.post7 (posts pending)) by (simpl; auto).
  exact (proj1 (proj2 (proj2 (proj2 (proj2
    (failed_delete_reorders_collection pending 7 Sample.post7 Sample.timeout
       (spread_create Sample.clock Sample.draft) Sample.post3
       [] [] [Sample.post5; Sample.post7]
       ND HIn eq_refl eq_refl eq_refl)))))).
Defined.

(* ================================================================= *)
(** ** The variants compared *)

Lemma same_behaviour_complete {R A} (a b : Async R A) (o : Outcome R) :
  same_behaviour a b ->
  immediate a = immediate b /\ remote_call a = remote_call b /\
  complete a o = complete b o.
Proof.
  destruct a, b; simpl; try tauto.
  - intros [-> ->]. auto.
  - intros [-> [-> H]]. auto.
Qed.

Lemma context_create_as_zustand (t : Z) (data : PostData) (s : PostsState) :
  same_behaviour (createPost context_hook t data s)
                 (createPost zustand_hook t data s).
Proof.
  simpl. split; [reflexivity|]. split; [reflexivity|].
  intros [r | err] cur; reflexivity.
Qed.

Lemma context_update_as_zustand (i : Z) (data : PartialPost) (s : PostsState) :
  same_behaviour (updatePost context_hook i data s)
                 (updatePost zustand_hook i data s).
Proof.
  simpl. unfold ContextApi.rendered_updatePost, ContextApi.updatePost,
    Zustand.updatePost.
  destruct (find (has_id i) (posts s)); simpl; [|auto].
  split; [reflexivity|]. split; [reflexivity|].
  intros [r | err] cur; reflexivity.
Qed.

Lemma context_delete_as_zustand (i : Z) (s : PostsState) :
  same_behaviour (deletePost context_hook i s)
                 (deletePost zustand_hook i s).
Proof.
  simpl. unfold ContextApi.rendered_deletePost, ContextApi.deletePost,
    Zustand.deletePost.
  destruct (find (has_id i) (posts s)); simpl; [|auto].
  split; [reflexivity|]. split; [reflexivity|].
  intros [r | err] cur; reflexivity.
Qed.

(** Where the recoil actions do agree with the zustand store: an absent
    id, a confirmed delete, a failed create whose temporary id is new,
    and an update (confirmed or failed) whose data leaves the id alone. *)
Lemma map_replace_after_merge (i : Z) (data : PartialPost) (v : Post)
  (ps : list Post) :
  (p_id data = None \/ p_id data = Some i) ->
  map (fun p => if has_id i p then v else p)
      (map (fun p => if has_id i p then spread_merge p data else p) ps)
  = map (fun p => if has_id i p then v else p) ps.
Proof.
  intros Hd. rewrite map_map. apply map_ext. intros p.
  destruct (has_id i p) eqn:E; [|rewrite E; reflexivity].
  apply has_id_true in E.
  assert (E' : has_id i (spread_merge p data) = true).
  { apply has_id_true. rewrite <- E. apply spread_merge_keeps_id.
    rewrite E. exact Hd. }
  rewrite E'. reflexivity.
Qed.

Lemma recoil_agrees_elsewhere :
  (forall i s, complete (deletePost recoil_hook i s) (Resolved tt)
               = complete (deletePost zustand_hook i s) (Resolved tt)) /\
  (forall t data s err,
      ~ In t (ids (posts s)) ->
      complete (createPost recoil_hook t data s) (Rejected err)
      = complete (createPost zustand_hook t data s) (Rejected err)) /\
  (forall i data s o,
      (p_id data = None \/ p_id data = Some i) ->
      complete (updatePost recoil_hook i data s) o
      = complete (updatePost zustand_hook i data s) o).
Proof.
  split; [|split].
  - intros i s. simpl.
    unfold Recoil.deletePost, Recoil.deletePostAction, Zustand.deletePost.
    destruct (find (has_id i) (posts s)); reflexivity.
  - intros t data s err Hfresh. simpl.
    rewrite lacks_id_placeholder. reflexivity.
  - intros i data s o Hd. simpl.
    unfold Recoil.updatePost, Recoil.updatePostAction, Zustand.updatePost.
    destruct (find (has_id i) (posts s)) as [r|]; [|reflexivity].
    destruct o as [reply | err]; simpl;
      rewrite map_replace_after_merge by exact Hd; reflexivity.
Qed.

(** C8.  The context-api provider and the zustand store agree on every
    input, but the recoil actions do not agree with them: they compute the
    reconciliation and the rollback from the array they were called with
    instead of the current collection.  On the store with ids 3, 5, 7 a
    successful create leaves the created record out of the recoil
    collection, and a failed delete of 5 leaves record 5 in it twice. *)
Theorem recoil_departs_from_zustand :
  (forall t data s o,
      complete (createPost context_hook t data s) o
      = complete (createPost zustand_hook t data s) o) /\
  (forall i data s o,
      complete (updatePost context_hook i data s) o
      = complete (updatePost zustand_hook i data s) o) /\
  (forall i s o,
      complete (deletePost context_hook i s) o
      = complete (deletePost zustand_hook i s) o) /\
  posts (final_state (createPost zustand_hook Sample.clock Sample.draft Sample.stored)
                     (Resolved Sample.served))
    = [Sample.served; Sample.post3; Sample.post5; Sample.post7] /\
  posts (final_state (createPost recoil_hook Sample.clock Sample.draft Sample.stored)
                     (Resolved Sample.served))
    = [Sample.post3; Sample.post5; Sample.post7] /\
  posts (final_state (deletePost zustand_hook 5 Sample.stored)
                     (Rejected Sample.timeout))
    = [Sample.post3; Sample.post5; Sample.post7] /\
  posts (final_state (deletePost recoil_hook 5 Sample.stored)
                     (Rejected Sample.timeout))
    = [Sample.post3; Sample.post5; Sample.post5; Sample.post7] /\
  complete (createPost recoil_hook Sample.clock Sample.draft Sample.stored)
           (Resolved Sample.served)
    <> complete (createPost zustand_hook Sample.clock Sample.draft Sample.stored)
                (Resolved Sample.served) /\
  complete (deletePost recoil_hook 5 Sample.stored) (Rejected Sample.timeout)
    <> complete (deletePost zustand_hook 5 Sample.stored) (Rejected Sample.timeout).
Proof.
  split; [|split; [|split]].
  - intros t data s o.
    apply (same_behaviour_complete _ _ o (context_create_as_zustand t data s)).
  - intros i data s o.
    apply (same_behaviour_complete _ _ o (context_update_as_zustand i data s)).
  - intros i s o.
    apply (same_behaviour_complete _ _ o (context_delete_as_zustand i s)).
  - repeat split; try reflexivity; vm_compute; discriminate.
Qed.

(* ================================================================= *)
(** ** Distinct ids along a sequence of successful operations *)

Section UniqueIds.

Lemma not_in_rename (i j : Z) (l : list Z) :
  j <> i -> ~ In i (map (fun y => if y =? i then j else y) l).
Proof.
  intros Hne HIn. apply in_rename in HIn.
  destruct HIn as [[H _] | [H _]]; congruence.
Qed.

Lemma rename_same (i : Z) (l : list Z) :
  map (fun y => if y =? i then i else y) l = l.
Proof.
  rewrite <- (map_id l) at 2. apply map_ext.
  intros y. destruct (y =? i) eqn:E; [apply Z.eqb_eq in E|]; auto.
Qed.

(** The index [findIndex] returns holds a record that satisfies the
    predicate. *)
Lemma findIndex_nth (pred : Post -> bool) (ps : list Post) (k : nat) :
  Js.findIndex pred ps = Some k ->
  exists p, nth_error ps k = Some p /\ pred p = true.
Proof.
  revert k. induction ps as [|x ps IH]; simpl; intros k H; [discriminate|].
  destruct (pred x) eqn:E.
  - injection H as <-. exists x. auto.
  - destruct (Js.findIndex pred ps) as [k'|]; [|discriminate].
    injection H as <-. simpl. apply IH. reflexivity.
Qed.

(** With distinct ids, assigning at the index found for an id is the
    replacement of the record under that id. *)
Lemma assign_findIndex (ps : list Post) (x : Z) (k : nat) (v : Post) :
  NoDup (ids ps) -> Js.findIndex (has_id x) ps = Some k ->
  Js.assign ps k v = map (fun p => if has_id x p then v else p) ps.
Proof.
  revert k. induction ps as [|p ps IH]; simpl; intros k ND H; [discriminate|].
  inversion ND as [|y l Hy ND']; subst.
  destruct (has_id x p) eqn:E.
  - injection H as <-. simpl. f_equal. symmetry.
    apply map_replace_absent with (g := fun _ => v).
    apply has_id_true in E. congruence.
  - destruct (Js.findIndex (has_id x) ps) as [k'|]; [|discriminate].
    injection H as <-. simpl. f_equal. apply IH; auto.
Qed.

(** The steps of the stores, one by one. *)

Lemma unique_after_prepend (ps : list Post) (t : Z) (data : PostData) :
  NoDup (ids ps) -> ~ In t (ids ps) ->
  NoDup (ids (spread_create t data :: ps)).
Proof. intros ND H. simpl. constructor; assumption. Qed.

Lemma unique_after_replace (ps : list Post) (i : Z) (v : Post) :
  NoDup (ids ps) -> (id v = i \/ ~ In (id v) (ids ps)) ->
  NoDup (ids (map (fun p => if has_id i p then v else p) ps)).
Proof.
  intros ND H.
  apply NoDup_ids_map_replace with (j := id v) (g := fun _ => v); auto.
Qed.

Lemma unique_after_merge (ps : list Post) (i : Z) (data : PartialPost) :
  NoDup (ids ps) ->
  (or_else (p_id data) i = i \/ ~ In (or_else (p_id data) i) (ids ps)) ->
  NoDup (ids (map (fun p => if has_id i p then spread_merge p data else p) ps)).
Proof.
  intros ND H.
  apply NoDup_ids_map_replace
    with (j := or_else (p_id data) i) (g := fun p => spread_merge p data); auto.
  intros p Hp. simpl. rewrite Hp. reflexivity.
Qed.

(** After the merge, replacing under [i] by the server's record. *)
Lemma unique_after_merge_then_replace
  (ps : list Post) (i : Z) (data : PartialPost) (v : Post) :
  NoDup (ids ps) ->
  (or_else (p_id data) i = i \/ ~ In (or_else (p_id data) i) (ids ps)) ->
  (id v = i \/ ~ In (id v) (ids ps)) ->
  NoDup (ids (map (fun p => if has_id i p then v else p)
                  (map (fun p => if has_id i p then spread_merge p data else p) ps))).
Proof.
  intros ND Hj Hv.
  pose proof (unique_after_merge ps i data ND Hj) as ND1.
  assert (Hids : ids (map (fun p => if has_id i p then spread_merge p data else p) ps)
                 = map (fun y => if y =? i then or_else (p_id data) i else y) (ids ps)).
  { apply ids_map_replace. intros p Hp. simpl. rewrite Hp. reflexivity. }
  destruct (Z.eq_dec (or_else (p_id data) i) i) as [E | E].
  - apply unique_after_replace; [exact ND1|].
    rewrite Hids, E, rename_same. exact Hv.
  - rewrite map_replace_absent with (g := fun _ => v); [exact ND1|].
    rewrite Hids. apply not_in_rename. exact E.
Qed.

End UniqueIds.

Lemma Forall_last (P : PostsState -> Prop) (l : list PostsState) (s : PostsState) :
  Forall P l -> P s -> P (last l s).
Proof.
  induction l as [|x l IH]; simpl; intros HF Hs; [exact Hs|].
  inversion HF; subst. destruct l; auto.
Qed.

Lemma trace_keeps_ids_unique (h : UsePostsReturn) :
  keeps_ids_unique h ->
  forall ops s, unique_ids s -> all_new_ids h ops s ->
                Forall unique_ids (trace h ops s).
Proof.
  intros Hh ops. induction ops as [|op ops IH]; simpl; intros s Hs Hnew.
  - constructor.
  - destruct Hnew as [Hop Hrest].
    pose proof (Hh op s Hs Hop) as Hseen.
    apply Forall_app. split; [exact Hseen|].
    apply IH; [|exact Hrest].
    apply Forall_last; assumption.
Qed.

Lemma zustand_keeps_ids_unique : keeps_ids_unique zustand_hook.
Proof.
  intros [t data reply | i data reply | i] s Hs Hnew; simpl in *;
    unfold unique_ids in *.
  - destruct Hnew as [Ht [Hr Hne]].
    each_state; unfold unique_ids.
    + apply unique_after_prepend; assumption.
    + simpl posts. rewrite has_id_placeholder.
      rewrite map_replace_absent with (g := fun _ => reply) by exact Ht.
      simpl. constructor; assumption.
  - destruct Hnew as [Hj Hv].
    unfold Zustand.updatePost.
    destruct (find (has_id i) (posts s)); simpl.
    + each_state; unfold unique_ids; simpl.
      * apply unique_after_merge; assumption.
      * apply unique_after_merge_then_replace; assumption.
    + each_state. exact Hs.
  - unfold Zustand.deletePost.
    destruct (find (has_id i) (posts s)); simpl.
    + each_state; unfold unique_ids; simpl;
        apply NoDup_ids_filter; exact Hs.
    + each_state. exact Hs.
Qed.

Lemma context_keeps_ids_unique : keeps_ids_unique context_hook.
Proof.
  intros op s Hs Hnew.
  pose proof (zustand_keeps_ids_unique op s Hs Hnew) as Hz.
  destruct op as [t data reply | i data reply | i]; simpl in *.
  - exact Hz.
  - unfold ContextApi.rendered_updatePost, ContextApi.updatePost.
    unfold Zustand.updatePost in Hz.
    destruct (find (has_id i) (posts s)); exact Hz.
  - unfold ContextApi.rendered_deletePost, ContextApi.deletePost.
    unfold Zustand.deletePost in Hz.
    destruct (find (has_id i) (posts s)); exact Hz.
Qed.

Lemma redux_create_fulfilled_unique (reply : Post) (s : PostsState) :
  unique_ids s -> ~ In (id reply) (ids (posts s)) ->
  unique_ids (Redux.createPostThunk_fulfilled reply s).
Proof.
  intros Hs Hr. unfold Redux.createPostThunk_fulfilled.
  destruct (find (fun p => id p >? 1000) (posts s)) as [ph|]; [|exact Hs].
  destruct (id ph =? 0); [exact Hs|].
  destruct (Js.findIndex (has_id (id ph)) (posts s)) as [k|] eqn:Hk; [|exact Hs].
  unfold unique_ids in *. simpl.
  rewrite assign_findIndex with (x := id ph) by assumption.
  apply unique_after_replace; auto.
Qed.

Lemma redux_update_fulfilled_unique (reply : Post) (s : PostsState) :
  unique_ids s -> unique_ids (Redux.updatePostThunk_fulfilled reply s).
Proof.
  intros Hs. unfold Redux.updatePostThunk_fulfilled.
  destruct (Js.findIndex (has_id (id reply)) (posts s)) as [k|] eqn:Hk; [|exact Hs].
  unfold unique_ids in *. simpl.
  rewrite assign_findIndex with (x := id reply) by assumption.
  apply unique_after_replace; auto.
Qed.

Lemma redux_optimistic_update_unique (i : Z) (data : PartialPost) (s : PostsState) :
  unique_ids s ->
  (or_else (p_id data) i = i \/ ~ In (or_else (p_id data) i) (ids (posts s))) ->
  unique_ids (Redux.optimisticUpdate i data s).
Proof.
  intros Hs Hj. unfold Redux.optimisticUpdate.
  destruct (Js.findIndex (has_id i) (posts s)) as [k|] eqn:Hk; [|exact Hs].
  destruct (findIndex_nth _ _ _ Hk) as [p [Hp Hid]].
  rewrite Hp. apply has_id_true in Hid.
  unfold unique_ids in *. simpl.
  rewrite assign_findIndex with (x := i) by assumption.
  apply unique_after_replace; [exact Hs|].
  simpl. rewrite Hid. exact Hj.
Qed.

Lemma redux_keeps_ids_unique : keeps_ids_unique redux_hook.
Proof.
  intros [t data reply | i data reply | i] s Hs Hnew; simpl in *.
  - destruct Hnew as [Ht [Hr Hne]].
    assert (H1 : unique_ids (Redux.optimisticCreate (spread_create t data) s)).
    { unfold unique_ids in *. simpl. constructor; assumption. }
    each_state; [exact H1|].
    apply redux_create_fulfilled_unique; [exact H1|].
    simpl. intros [H | H]; [symmetry in H|]; contradiction.
  - destruct Hnew as [Hj Hv].
    unfold Redux.rendered_updatePost, Redux.updatePost.
    destruct (find (has_id i) (posts s)); simpl.
    + pose proof (redux_optimistic_update_unique i data s Hs Hj) as H1.
      each_state; [exact H1|].
      apply redux_update_fulfilled_unique. exact H1.
    + each_state. exact Hs.
  - unfold Redux.rendered_deletePost, Redux.deletePost.
    destruct (find (has_id i) (posts s)); simpl.
    + each_state; unfold unique_ids, Redux.optimisticDelete; simpl;
        apply NoDup_ids_filter; exact Hs.
    + each_state. exact Hs.
Qed.

(** C1 (as amended).  Start from a collection with distinct ids and run
    any sequence of create, update and delete operations whose remote
    calls all succeed, each operation bringing new ids only (the temporary
    id and the id of the created record are not in the collection and
    differ; an update's data and answer keep the id or use one that is not
    in the collection).  Then after every optimistic step and after every
    reconciliation no two records share an id; in the zustand store, the
    context-api provider and the redux slice. *)
Theorem ids_stay_unique (ops : list Op) (s : PostsState) :
  unique_ids s ->
  (all_new_ids zustand_hook ops s ->
   Forall unique_ids (trace zustand_hook ops s)) /\
  (all_new_ids context_hook ops s ->
   Forall unique_ids (trace context_hook ops s)) /\
  (all_new_ids redux_hook ops s ->
   Forall unique_ids (trace redux_hook ops s)).
Proof.
  intros Hs. repeat split; intros Hnew.
  - exact (trace_keeps_ids_unique zustand_hook zustand_keeps_ids_unique ops s Hs Hnew).
  - exact (trace_keeps_ids_unique context_hook context_keeps_ids_unique ops s Hs Hnew).
  - exact (trace_keeps_ids_unique redux_hook redux_keeps_ids_unique ops s Hs Hnew).
Qed.

Lemma ids_stay_unique_witness :
  unique_ids Sample.stored /\
  all_new_ids zustand_hook Sample.session Sample.stored /\
  all_new_ids redux_hook Sample.session Sample.stored /\
  Forall unique_ids (trace zustand_hook Sample.session Sample.stored) /\
  Forall unique_ids (trace redux_hook Sample.session Sample.stored).
Proof.
  assert (ND : unique_ids Sample.stored).
  { unfold unique_ids. simpl. repeat constructor; simpl; intuition discriminate. }
  assert (Hz : all_new_ids zustand_hook Sample.session Sample.stored).
  { simpl. unfold Sample.clock. intuition discriminate. }
  assert (Hr : all_new_ids redux_hook Sample.session Sample.stored).
  { simpl. unfold Sample.clock. intuition discriminate. }
  split; [exact ND|]. split; [exact Hz|]. split; [exact Hr|].
  pose proof (ids_stay_unique Sample.session Sample.stored ND) as [Z1 [_ R1]].
  split; [exact (Z1 Hz) | exact (R1 Hr)].
Defined.

(** C1 as it is stated fails when the server answers two creates with the
    same id (as a server that numbers every new record 101 does): the
    remote calls succeed, the temporary ids are new, and the collection
    ends with two records under id 101. *)
Lemma same_server_id_twice_breaks_uniqueness :
  unique_ids Sample.stored /\
  ids (posts (last (trace zustand_hook Sample.two_creates Sample.stored)
                   Sample.stored))
    = [101; 101; 3; 5; 7] /\
  ~ Forall unique_ids (trace zustand_hook Sample.two_creates Sample.stored).
Proof.
  split.
  { unfold unique_ids. simpl. repeat constructor; simpl; intuition discriminate. }
  split; [reflexivity|].
  intros HF. rewrite Forall_forall in HF.
  specialize (HF (last (trace zustand_hook Sample.two_creates Sample.stored)
                       Sample.stored)).
  assert (HIn : In (last (trace zustand_hook Sample.two_creates Sample.stored)
                         Sample.stored)
                   (trace zustand_hook Sample.two_creates Sample.stored)).
  { simpl. auto 6. }
  specialize (HF HIn). unfold unique_ids in HF. simpl in HF.
  inversion HF as [|x l Hx _]; subst. apply Hx. left. reflexivity.
Qed.


(* ================================================================= *)
(** ** Further properties of the stores *)

(** X1.  A fetch whose remote call fails never throws: in the zustand,
    context-api, recoil, jotai and redux variants it completes normally,
    leaves the collection as the store holds it at that time and lowers
    [loading].  The first four record in [error] the caught value when
    it is an [Error] and a new "Failed to fetch posts" error otherwise;
    the redux slice, whose reducer is handed the serialized form of the
    rejection, always records a new "Failed to fetch posts" error. *)
Theorem fetch_failure_is_recorded (s cur : PostsState) (err : Js.Value) :
  let recorded (e : Js.Value) :=
    (mkState (posts cur) false (Some e), Returned tt) in
  let caught := Js.as_Error err "Failed to fetch posts" in
  resume_on (Zustand.fetchPosts s) (Rejected err) cur = recorded caught /\
  resume_on (ContextApi.fetchPosts s) (Rejected err) cur = recorded caught /\
  resume_on (Recoil.fetchPostsAction s) (Rejected err) cur = recorded caught /\
  resume_on (Jotai.fetchPosts s) (Rejected err) cur = recorded caught /\
  resume_on (ReduxFetch.fetchPosts s) (Rejected err) cur
  = recorded (Js.ErrorObject "Error" "Failed to fetch posts") /\
  (forall http_failure,
      error (final_state (Zustand.fetchPosts s)
                         (postsApi.getAll (Rejected http_failure)))
      = Some (Js.ErrorObject "Error" "Failed to fetch posts")).
Proof.
  cbv zeta. repeat split; try reflexivity.
  destruct err; reflexivity.
Qed.

Lemma length_assign (ps : list Post) (k : nat) (v : Post) :
  List.length (Js.assign ps k v) = List.length ps.
Proof.
  revert k. induction ps as [|p ps IH]; intros [|k]; simpl; auto.
Qed.

Lemma length_map_replace (i : Z) (g : Post -> Post) (ps : list Post) :
  List.length (map (fun p => if has_id i p then g p else p) ps)
  = List.length ps.
Proof. apply length_map. Qed.

(** X4.  An update never changes the number of records: not in its
    optimistic step, and not when it is confirmed or rolled back,
    whatever state the store is in by then.  For the zustand store, the
    context-api provider and the redux hook. *)
Theorem update_keeps_the_number_of_records
  (s cur : PostsState) (i : Z) (data : PartialPost) (o : Outcome Post) :
  let count (st : PostsState) := List.length (posts st) in
  (count (immediate (updatePost zustand_hook i data s)) = count s /\
   count (fst (resume_on (updatePost zustand_hook i data s) o cur)) = count cur)
  /\
  (count (immediate (updatePost context_hook i data s)) = count s /\
   count (fst (resume_on (updatePost context_hook i data s) o cur)) = count cur)
  /\
  (count (immediate (updatePost redux_hook i data s)) = count s /\
   count (fst (resume_on (updatePost redux_hook i data s) o cur)) = count cur).
Proof.
  cbv zeta. simpl.
  unfold ContextApi.rendered_updatePost, Redux.rendered_updatePost,
    Zustand.updatePost, ContextApi.updatePost, Redux.updatePost.
  destruct (find (has_id i) (posts s)) as [r|]; simpl;
    [|repeat split; reflexivity].
  assert (Hopt : List.length (posts (Redux.optimisticUpdate i data s))
                 = List.length (posts s)).
  { unfold Redux.optimisticUpdate.
    destruct (Js.findIndex (has_id i) (posts s)); [|reflexivity].
    destruct (nth_error (posts s) n); [|reflexivity].
    simpl. apply length_assign. }
  destruct o as [reply | err]; simpl; rewrite ?length_map;
    repeat split; try reflexivity; try exact Hopt.
  - unfold Redux.updatePostThunk_fulfilled.
    destruct (Js.findIndex (has_id (id reply)) (posts cur)); [|reflexivity].
    simpl. apply length_assign.
  - unfold Redux.rollbackUpdate.
    destruct (Js.findIndex (has_id i) (posts cur)); [|reflexivity].
    simpl. apply length_assign.
Qed.

Lemma redux_reducers_keep_flags (cur : PostsState) (p : Post) (i : Z)
  (data : PartialPost) :
  let same (st : PostsState) := error st = error cur /\ loading st = loading cur in
  same (Redux.createPostThunk_fulfilled p cur) /\
  same (Redux.updatePostThunk_fulfilled p cur) /\
  same (Redux.rollbackCreate i cur) /\
  same (Redux.rollbackUpdate i p cur) /\
  same (Redux.rollbackDelete p cur) /\
  same (Redux.optimisticUpdate i data cur).
Proof.
  cbv zeta.
  unfold Redux.createPostThunk_fulfilled, Redux.updatePostThunk_fulfilled,
    Redux.rollbackCreate, Redux.rollbackUpdate, Redux.rollbackDelete,
    Redux.optimisticUpdate.
  destruct (find (fun q => id q >? 1000) (posts cur)) as [ph|];
    [destruct (id ph =? 0);
     [|destruct (Js.findIndex (has_id (id ph)) (posts cur))]|];
    destruct (Js.findIndex (has_id (id p)) (posts cur));
    destruct (Js.findIndex (has_id i) (posts cur)) as [k|];
    try destruct (nth_error (posts cur) k);
    simpl; repeat split; reflexivity.
Qed.

(** X5.  A mutation that the server confirms leaves [error] and [loading]
    as they are, in the zustand, context-api, recoil, redux and jotai
    variants: an error recorded earlier stays until the next fetch.  In
    the redux hook a mutation that fails leaves them alone as well: its
    rollback reducers never record the failure. *)
Theorem confirmed_mutations_leave_error_alone
  (s cur : PostsState) (t i : Z) (data : PostData) (pdata : PartialPost)
  (reply : Post) (err : Js.Value) :
  let same (st : PostsState) := error st = error cur /\ loading st = loading cur in
  let confirmed (h : UsePostsReturn) :=
    same (fst (resume_on (createPost h t data s) (Resolved reply) cur)) /\
    same (fst (resume_on (updatePost h i pdata s) (Resolved reply) cur)) /\
    same (fst (resume_on (deletePost h i s) (Resolved tt) cur)) in
  confirmed zustand_hook /\ confirmed context_hook /\
  confirmed recoil_hook /\ confirmed redux_hook /\ confirmed jotai_hook /\
  (same (fst (resume_on (createPost redux_hook t data s) (Rejected err) cur)) /\
   same (fst (resume_on (updatePost redux_hook i pdata s) (Rejected err) cur)) /\
   same (fst (resume_on (deletePost redux_hook i s) (Rejected err) cur))).
Proof.
  cbv zeta. simpl.
  unfold ContextApi.rendered_updatePost, ContextApi.rendered_deletePost,
    Redux.rendered_updatePost, Redux.rendered_deletePost,
    Recoil.createPost, Recoil.updatePost, Recoil.deletePost,
    Zustand.updatePost, Zustand.deletePost,
    ContextApi.updatePost, ContextApi.deletePost,
    Recoil.createPostAction, Recoil.updatePostAction, Recoil.deletePostAction,
    Redux.updatePost, Redux.deletePost, Jotai.updatePost, Jotai.deletePost.
  pose proof (redux_reducers_keep_flags cur reply t pdata) as [F1 [F2 [F3 _]]].
  cbv zeta in F1, F2, F3.
  destruct (find (has_id i) (posts s)) as [r|]; simpl.
  - pose proof (redux_reducers_keep_flags cur r i pdata) as [_ [_ [_ [F4 [F5 _]]]]].
    cbv zeta in F4, F5.
    repeat split; try reflexivity;
      try (apply F1 || apply F2 || apply F3 || apply F4 || apply F5).
  - repeat split; try reflexivity; try (apply F1 || apply F3).
Qed.

(** X8.  Once a delete of [i] has been confirmed, the store has no record
    under [i]: a second delete of [i], or an update of it, settles at once
    with "Post not found" and issues no remote call. *)
Theorem deleted_id_is_not_found (s : PostsState) (i : Z) (data : PartialPost) :
  let after := final_state (Zustand.deletePost i s) (Resolved tt) in
  let not_found := Js.new_Error "Post not found" in
  ~ In i (ids (posts after)) /\
  Zustand.deletePost i after = Settled after (Threw not_found) /\
  Zustand.updatePost i data after = Settled after (Threw not_found).
Proof.
  cbv zeta.
  assert (H : ~ In i (ids (posts (final_state (Zustand.deletePost i s)
                                                (Resolved tt))))).
  { unfold final_state, Zustand.deletePost.
    destruct (find (has_id i) (posts s)) eqn:Hf; simpl.
    - unfold ids. rewrite in_map_iff. intros [q [Hq HIn]].
      apply filter_In in HIn. destruct HIn as [_ HIn].
      apply lacks_id_true in HIn. auto.
    - apply find_has_id_none. exact Hf. }
  split; [exact H|].
  apply find_has_id_none in H.
  unfold Zustand.deletePost at 1, Zustand.updatePost. rewrite H. auto.
Qed.

Lemma in_map_replace_other (i : Z) (g : Post -> Post) (ps : list Post) (p : Post) :
  In p ps -> id p <> i -> In p (map (fun q => if has_id i q then g q else q) ps).
Proof.
  intros HIn Hne. apply in_map_iff. exists p. split; [|exact HIn].
  apply has_id_false in Hne. rewrite Hne. reflexivity.
Qed.

Lemma nth_map_replace_other (i : Z) (g : Post -> Post) (ps : list Post)
  (k : nat) (p : Post) :
  nth_error ps k = Some p -> id p <> i ->
  nth_error (map (fun q => if has_id i q then g q else q) ps) k = Some p.
Proof.
  intros Hk Hne. rewrite nth_error_map, Hk. simpl.
  apply has_id_false in Hne. rewrite Hne. reflexivity.
Qed.

Lemma in_filter_lacks_other (i : Z) (ps : list Post) (p : Post) :
  In p ps -> id p <> i -> In p (filter (lacks_id i) ps).
Proof.
  intros HIn Hne. apply filter_In. split; [exact HIn|].
  apply lacks_id_true. exact Hne.
Qed.

(** X2.  The continuations of the zustand store work on the collection as
    it is when the remote call settles and touch only the records under
    their own id: a record [p] that the store holds at that time under
    another id is still in the collection afterwards, whatever the
    outcome; a confirmed or rolled-back update even leaves it at its
    position. *)
Theorem zustand_continuations_keep_other_records
  (s cur : PostsState) (p : Post) (t i : Z) (data : PostData)
  (pdata : PartialPost) (oc ou : Outcome Post) (od : Outcome unit) (k : nat) :
  In p (posts cur) ->
  (id p <> t ->
   In p (posts (fst (resume_on (Zustand.createPost t data s) oc cur)))) /\
  (id p <> i ->
   In p (posts (fst (resume_on (Zustand.updatePost i pdata s) ou cur)))) /\
  (id p <> i ->
   In p (posts (fst (resume_on (Zustand.deletePost i s) od cur)))) /\
  (id p <> i -> nth_error (posts cur) k = Some p ->
   nth_error (posts (fst (resume_on (Zustand.updatePost i pdata s) ou cur))) k
   = Some p).
Proof.
  intros HIn. unfold Zustand.updatePost, Zustand.deletePost.
  split; [|split; [|split]].
  - intros Hne. destruct oc as [reply | err]; simpl.
    + apply in_map_replace_other with (g := fun _ => reply); assumption.
    + apply in_filter_lacks_other; assumption.
  - intros Hne. destruct (find (has_id i) (posts s)) as [r|]; simpl; [|exact HIn].
    destruct ou as [reply | err]; simpl.
    + apply in_map_replace_other with (g := fun _ => reply); assumption.
    + apply in_map_replace_other with (g := fun _ => r); assumption.
  - intros Hne. destruct (find (has_id i) (posts s)) as [r|]; simpl; [|exact HIn].
    destruct od as [u | err]; simpl; [exact HIn|].
    eapply Permutation_in; [symmetry; apply sort_perm|].
    apply in_or_app. left. exact HIn.
  - intros Hne Hk.
    destruct (find (has_id i) (posts s)) as [r|]; simpl; [|exact Hk].
    destruct ou as [reply | err]; simpl.
    + apply nth_map_replace_other with (g := fun _ => reply); assumption.
    + apply nth_map_replace_other with (g := fun _ => r); assumption.
Qed.

Lemma zustand_continuations_keep_other_records_witness :
  let pending := Zustand.updatePost 5 Sample.retitle Sample.stored in
  let meanwhile :=
    final_state (Zustand.createPost Sample.clock Sample.draft (immediate pending))
                (Resolved Sample.served) in
  nth_error (posts meanwhile) 0 = Some Sample.served /\
  nth_error (posts (fst (resume_on pending (Rejected Sample.timeout) meanwhile))) 0
  = Some Sample.served.
Proof.
  cbv zeta. split; [reflexivity|].
  set (meanwhile :=
         final_state (Zustand.createPost Sample.clock Sample.draft
                        (immediate (Zustand.updatePost 5 Sample.retitle Sample.stored)))
                     (Resolved Sample.served)).
  assert (HIn : In Sample.served (posts meanwhile)) by (left; reflexivity).
  assert (Hne : id Sample.served <> 5) by discriminate.
  assert (Hk : nth_error (posts meanwhile) 0 = Some Sample.served) by reflexivity.
  exact (proj2 (proj2 (proj2
    (zustand_continuations_keep_other_records Sample.stored meanwhile
       Sample.served Sample.clock 5 Sample.draft Sample.retitle
       (Rejected Sample.timeout) (Rejected Sample.timeout) (Resolved tt) 0 HIn)))
    Hne Hk).
Defined.

(** X3.  The continuations of the recoil actions write a collection
    computed from the array the action was called with: what the store
    holds when the remote call settles has no influence on the collection
    they leave, so whatever other operations did meanwhile is
    overwritten. *)
Theorem recoil_continuations_ignore_the_current_collection
  (s cur cur' : PostsState) (t i : Z) (data : PostData) (pdata : PartialPost)
  (o : Outcome Post) (err : Js.Value) :
  In i (ids (posts s)) ->
  posts (fst (resume_on (Recoil.createPost t data s) o cur))
  = posts (fst (resume_on (Recoil.createPost t data s) o cur')) /\
  posts (fst (resume_on (Recoil.updatePost i pdata s) o cur))
  = posts (fst (resume_on (Recoil.updatePost i pdata s) o cur')) /\
  posts (fst (resume_on (Recoil.deletePost i s) (Rejected err) cur))
  = posts (fst (resume_on (Recoil.deletePost i s) (Rejected err) cur')).
Proof.
  intros Hpres.
  destruct (find (has_id i) (posts s)) as [r|] eqn:Hf;
    [| apply find_has_id_none in Hf; contradiction].
  unfold Recoil.createPost, Recoil.updatePost, Recoil.deletePost,
    Recoil.createPostAction, Recoil.updatePostAction, Recoil.deletePostAction.
  rewrite Hf. destruct o as [reply | e]; simpl; repeat split; reflexivity.
Qed.

Lemma recoil_continuations_ignore_the_current_collection_witness :
  let pending := Recoil.deletePost 5 Sample.stored in
  let emptied := mkState [] false None in
  In 5 (ids (posts Sample.stored)) /\
  posts (fst (resume_on pending (Rejected Sample.timeout) emptied))
  = posts (fst (resume_on pending (Rejected Sample.timeout) Sample.stored)).
Proof.
  cbv zeta.
  assert (H5 : In 5 (ids (posts Sample.stored))) by (simpl; auto).
  split; [exact H5|].
  exact (proj2 (proj2
    (recoil_continuations_ignore_the_current_collection Sample.stored
       (mkState [] false None) Sample.stored Sample.clock 5 Sample.draft
       Sample.retitle (Resolved Sample.served) Sample.timeout H5))).
Defined.





Lemma lacks_id_self (p : Post) : lacks_id (id p) p = false.
Proof. unfold lacks_id. rewrite Z.eqb_refl. reflexivity. Qed.

(** X7.  Create then delete is a round trip in the zustand store: when
    the temporary id and the id the server assigns are new to the
    collection, deleting the created record (confirmed by the server)
    leaves exactly the collection that was there before the create. *)
Theorem create_then_delete_round_trip
  (s : PostsState) (t : Z) (data : PostData) (reply : Post) :
  ~ In t (ids (posts s)) -> ~ In (id reply) (ids (posts s)) ->
  let created := final_state (Zustand.createPost t data s) (Resolved reply) in
  let deleting := Zustand.deletePost (id reply) created in
  posts created = reply :: posts s /\
  remote_call deleting = Some (CallDelete (id reply)) /\
  posts (immediate deleting) = posts s /\
  posts (final_state deleting (Resolved tt)) = posts s.
Proof.
  intros Ht Hr. cbv zeta.
  assert (Hc : posts (final_state (Zustand.createPost t data s) (Resolved reply))
               = reply :: posts s).
  { unfold final_state. simpl. rewrite has_id_placeholder. f_equal.
    apply map_replace_absent with (g := fun _ => reply). exact Ht. }
  split; [exact Hc|].
  unfold Zustand.deletePost. rewrite Hc. simpl find.
  rewrite has_id_self. unfold final_state. simpl.
  rewrite lacks_id_self.
  rewrite filter_lacks_absent by exact Hr. repeat split; reflexivity.
Qed.

Lemma create_then_delete_round_trip_witness :
  let created :=
    final_state (Zustand.createPost Sample.clock Sample.draft Sample.stored)
                (Resolved Sample.served) in
  ~ In Sample.clock (ids (posts Sample.stored)) /\
  ~ In (id Sample.served) (ids (posts Sample.stored)) /\
  posts (final_state (Zustand.deletePost 101 created) (Resolved tt))
  = [Sample.post3; Sample.post5; Sample.post7].
Proof.
  cbv zeta.
  assert (Ht : ~ In Sample.clock (ids (posts Sample.stored))).
  { simpl. unfold Sample.clock. intros [H | [H | [H | []]]]; discriminate. }
  assert (Hr : ~ In (id Sample.served) (ids (posts Sample.stored))).
  { simpl. intros [H | [H | [H | []]]]; discriminate. }
  split; [exact Ht|]. split; [exact Hr|].
  exact (proj2 (proj2 (proj2
    (create_then_delete_round_trip Sample.stored Sample.clock Sample.draft
       Sample.served Ht Hr)))).
Defined.

(* ================================================================= *)
(** ** The redux slice *)

Lemma findIndex_split (i : Z) (l1 l2 : list Post) (m : Post) :
  ~ In i (ids l1) -> id m = i ->
  Js.findIndex (has_id i) (l1 ++ m :: l2) = Some (List.length l1).
Proof.
  induction l1 as [|x l1 IH]; simpl; intros Hnot Hm.
  - apply has_id_true in Hm. rewrite Hm. reflexivity.
  - assert (E : has_id i x = false) by (apply has_id_false; intuition).
    rewrite E, IH by tauto. reflexivity.
Qed.

Lemma nth_error_split (l1 l2 : list Post) (m : Post) :
  nth_error (l1 ++ m :: l2) (List.length l1) = Some m.
Proof. induction l1 as [|x l1 IH]; simpl; auto. Qed.

Lemma assign_split (l1 l2 : list Post) (m v : Post) :
  Js.assign (l1 ++ m :: l2) (List.length l1) v = l1 ++ v :: l2.
Proof. induction l1 as [|x l1 IH]; simpl; [reflexivity|]. rewrite IH. reflexivity. Qed.

Lemma find_above_none (ps : list Post) :
  (forall p, In p ps -> id p <= 1000) ->
  find (fun p => id p >? 1000) ps = None.
Proof.
  induction ps as [|x ps IH]; simpl; intros H; [reflexivity|].
  assert (E : (id x >? 1000) = false).
  { rewrite Z.gtb_ltb. apply Z.ltb_ge. apply H. left. reflexivity. }
  rewrite E. apply IH. intros p Hp. apply H. right. exact Hp.
Qed.

Lemma redux_create_replaces_first_id_above_1000_aux
  (s : PostsState) (t : Z) (data : PostData) (reply : Post) :
  t > 1000 ->
  posts (Redux.createPostThunk_fulfilled reply
           (Redux.optimisticCreate (spread_create t data) s))
  = reply :: posts s.
Proof.
  intros Ht.
  unfold Redux.createPostThunk_fulfilled, Redux.optimisticCreate. simpl.
  assert (E : (t >? 1000) = true) by (apply Z.gtb_lt; lia).
  rewrite E. simpl.
  assert (E0 : (t =? 0) = false) by (apply Z.eqb_neq; lia).
  rewrite E0. rewrite has_id_placeholder. reflexivity.
Qed.

(** X9.  The redux reducer for a confirmed create takes the first record
    whose id exceeds 1000 for the placeholder.  With a clock value above
    1000 a create that runs alone therefore ends with the server's record
    first and the rest of the collection untouched, whatever the
    collection holds; and when the collection holds no id above 1000 at
    the time of the confirmation (the placeholder is gone), the reducer
    changes nothing and the created record never enters the collection. *)
Theorem redux_create_replaces_first_id_above_1000
  (s cur : PostsState) (t : Z) (data : PostData) (reply : Post) :
  (t > 1000 ->
   posts (final_state (Redux.createPost t data s) (Resolved reply))
   = reply :: posts s) /\
  ((forall p, In p (posts cur) -> id p <= 1000) ->
   resume_on (Redux.createPost t data s) (Resolved reply) cur
   = (cur, Returned reply)).
Proof.
  split.
  - intros Ht. unfold final_state. simpl.
    unfold Redux.createPostThunk_fulfilled, Redux.optimisticCreate. simpl.
    assert (E : (t >? 1000) = true) by (apply Z.gtb_lt; lia).
    rewrite E. simpl.
    assert (E0 : (t =? 0) = false) by (apply Z.eqb_neq; lia).
    rewrite E0. rewrite has_id_placeholder. reflexivity.
  - intros Hlow. simpl. unfold Redux.createPostThunk_fulfilled.
    rewrite find_above_none by exact Hlow. reflexivity.
Qed.

Lemma redux_create_replaces_first_id_above_1000_witness :
  Sample.clock > 1000 /\
  posts (final_state (Redux.createPost Sample.clock Sample.draft Sample.stored)
                     (Resolved Sample.served))
  = [Sample.served; Sample.post3; Sample.post5; Sample.post7] /\
  resume_on (Redux.createPost Sample.clock Sample.draft Sample.stored)
            (Resolved Sample.served) Sample.stored
  = (Sample.stored, Returned Sample.served).
Proof.
  assert (Ht : Sample.clock > 1000) by reflexivity.
  assert (Hlow : forall p, In p (posts Sample.stored) -> id p <= 1000).
  { simpl. intros p [<- | [<- | [<- | []]]]; simpl; lia. }
  pose proof (redux_create_replaces_first_id_above_1000 Sample.stored
                Sample.stored Sample.clock Sample.draft Sample.served)
    as [H1 H2].
  split; [exact Ht|]. split; [exact (H1 Ht) | exact (H2 Hlow)].
Defined.

(** X10.  Two creates in flight in the redux hook: the answer to the first
    lands on the placeholder of the second (the first record above 1000),
    and when the second create then fails its rollback finds nothing to
    remove.  The collection ends with the first create's record followed
    by the first create's placeholder, which no later step removes. *)
Theorem redux_overlapping_creates_leave_a_placeholder
  (s : PostsState) (t1 t2 : Z) (d1 d2 : PostData) (reply1 : Post)
  (err : Js.Value) :
  t2 > 1000 -> t1 <> t2 -> id reply1 <> t2 -> ~ In t2 (ids (posts s)) ->
  let first := Redux.createPost t1 d1 s in
  let second := Redux.createPost t2 d2 (immediate first) in
  let first_confirmed :=
    fst (resume_on first (Resolved reply1) (immediate second)) in
  let second_failed := fst (resume_on second (Rejected err) first_confirmed) in
  posts (immediate second)
  = spread_create t2 d2 :: spread_create t1 d1 :: posts s /\
  posts first_confirmed = reply1 :: spread_create t1 d1 :: posts s /\
  posts second_failed = reply1 :: spread_create t1 d1 :: posts s.
Proof.
  intros Ht2 Hne Hr Hfresh. cbv zeta. simpl.
  unfold Redux.createPostThunk_fulfilled, Redux.rollbackCreate,
    Redux.optimisticCreate. simpl.
  assert (E : (t2 >? 1000) = true) by (apply Z.gtb_lt; lia).
  rewrite E. simpl.
  assert (E0 : (t2 =? 0) = false) by (apply Z.eqb_neq; lia).
  rewrite E0. rewrite has_id_placeholder. simpl.
  assert (L1 : lacks_id t2 reply1 = true) by (apply lacks_id_true; exact Hr).
  assert (L2 : lacks_id t2 (spread_create t1 d1) = true)
    by (apply lacks_id_true; exact Hne).
  rewrite L1, L2. rewrite filter_lacks_absent by exact Hfresh.
  repeat split; reflexivity.
Qed.

Lemma redux_overlapping_creates_leave_a_placeholder_witness :
  let first := Redux.createPost Sample.clock Sample.draft Sample.stored in
  let second := Redux.createPost (Sample.clock + 1) Sample.draft (immediate first) in
  let first_confirmed :=
    fst (resume_on first (Resolved Sample.served) (immediate second)) in
  posts (fst (resume_on second (Rejected Sample.timeout) first_confirmed))
  = [Sample.served; spread_create Sample.clock Sample.draft;
     Sample.post3; Sample.post5; Sample.post7].
Proof.
  cbv zeta.
  assert (H1 : Sample.clock + 1 > 1000) by reflexivity.
  assert (H2 : Sample.clock <> Sample.clock + 1) by discriminate.
  assert (H3 : id Sample.served <> Sample.clock + 1) by discriminate.
  assert (H4 : ~ In (Sample.clock + 1) (ids (posts Sample.stored))).
  { simpl. intros [H | [H | [H | []]]]; discriminate. }
  exact (proj2 (proj2
    (redux_overlapping_creates_leave_a_placeholder Sample.stored Sample.clock
       (Sample.clock + 1) Sample.draft Sample.draft Sample.served
       Sample.timeout H1 H2 H3 H4))).
Defined.

(** The redux reducers on a collection split at the record under [i]. *)
Lemma redux_optimistic_update_split (s : PostsState) (i : Z)
  (data : PartialPost) (l1 l2 : list Post) (r : Post) :
  posts s = l1 ++ r :: l2 -> ~ In i (ids l1) -> id r = i ->
  posts (Redux.optimisticUpdate i data s) = l1 ++ spread_merge r data :: l2.
Proof.
  intros E N1 Hr. unfold Redux.optimisticUpdate. rewrite E.
  rewrite findIndex_split by assumption.
  rewrite nth_error_split. simpl. apply assign_split.
Qed.

Lemma redux_replace_split (cur : PostsState) (i : Z) (l1 l2 : list Post)
  (m v : Post) :
  posts cur = l1 ++ m :: l2 -> ~ In i (ids l1) -> id m = i ->
  posts (Redux.rollbackUpdate i v cur) = l1 ++ v :: l2 /\
  (id v = i -> posts (Redux.updatePostThunk_fulfilled v cur) = l1 ++ v :: l2).
Proof.
  intros E N1 Hm. split.
  - unfold Redux.rollbackUpdate. rewrite E.
    rewrite findIndex_split by assumption. simpl. apply assign_split.
  - intros Hv. unfold Redux.updatePostThunk_fulfilled. rewrite E, Hv.
    rewrite findIndex_split by assumption. simpl. apply assign_split.
Qed.

(** X11.  On a collection with distinct ids the redux hook leaves the
    same collection as the zustand store after every step of an operation
    run alone: always for a delete; for a create when the clock value
    exceeds 1000 and is not an id of the collection; for an update when
    the data leave the id alone and, if the server confirms, its record
    carries the updated id. *)
Theorem redux_holds_the_collection_of_zustand
  (s : PostsState) (t i : Z) (data : PostData) (pdata : PartialPost)
  (reply : Post) (err : Js.Value) :
  unique_ids s ->
  (forall o,
      posts (immediate (deletePost redux_hook i s))
      = posts (immediate (deletePost zustand_hook i s)) /\
      posts (final_state (deletePost redux_hook i s) o)
      = posts (final_state (deletePost zustand_hook i s) o))
  /\
  (t > 1000 -> ~ In t (ids (posts s)) ->
   forall o,
     posts (immediate (createPost redux_hook t data s))
     = posts (immediate (createPost zustand_hook t data s)) /\
     posts (final_state (createPost redux_hook t data s) o)
     = posts (final_state (createPost zustand_hook t data s) o))
  /\
  ((p_id pdata = None \/ p_id pdata = Some i) ->
   posts (immediate (updatePost redux_hook i pdata s))
   = posts (immediate (updatePost zustand_hook i pdata s)) /\
   posts (final_state (updatePost redux_hook i pdata s) (Rejected err))
   = posts (final_state (updatePost zustand_hook i pdata s) (Rejected err)) /\
   (id reply = i ->
    posts (final_state (updatePost redux_hook i pdata s) (Resolved reply))
    = posts (final_state (updatePost zustand_hook i pdata s) (Resolved reply)))).
Proof.
  intros ND. unfold unique_ids in ND. split; [|split].
  - intros o. simpl.
    unfold Redux.rendered_deletePost, Redux.deletePost, Zustand.deletePost,
      final_state.
    destruct (find (has_id i) (posts s)); simpl; [|auto].
    destruct o; simpl; auto.
  - intros Ht Hfresh o. split; [reflexivity|].
    destruct o as [r | e].
    + pose proof (redux_create_replaces_first_id_above_1000_aux s t data r Ht) as H.
      change (posts (Redux.createPostThunk_fulfilled r
                       (Redux.optimisticCreate (spread_create t data) s))
              = posts (final_state (Zustand.createPost t data s) (Resolved r))).
      rewrite H. unfold final_state. simpl.
      rewrite has_id_placeholder. f_equal. symmetry.
      apply map_replace_absent with (g := fun _ => r). exact Hfresh.
    + reflexivity.
  - intros Hd. simpl.
    unfold Redux.rendered_updatePost, Redux.updatePost, Zustand.updatePost,
      final_state.
    destruct (find (has_id i) (posts s)) as [r|] eqn:Hfind; simpl; [|auto].
    apply find_some in Hfind. destruct Hfind as [HIn Hid].
    apply has_id_true in Hid.
    destruct (split_at_record (posts s) r ND HIn) as [l1 [l2 [E [N1 N2]]]].
    rewrite Hid in N1, N2.
    assert (Hm : id (spread_merge r pdata) = i).
    { rewrite <- Hid. apply spread_merge_keeps_id. rewrite Hid. exact Hd. }
    pose proof (redux_optimistic_update_split s i pdata l1 l2 r E N1 Hid) as O.
    assert (Z1 : map (fun p => if has_id i p then spread_merge p pdata else p)
                     (posts s) = l1 ++ spread_merge r pdata :: l2).
    { rewrite E. apply map_replace_split with (g := fun p => spread_merge p pdata);
        assumption. }
    destruct (redux_replace_split (Redux.optimisticUpdate i pdata s) i l1 l2
                (spread_merge r pdata) r O N1 Hm) as [RB _].
    destruct (redux_replace_split (Redux.optimisticUpdate i pdata s) i l1 l2
                (spread_merge r pdata) reply O N1 Hm) as [_ RF].
    rewrite O, Z1, RB.
    rewrite map_replace_split with (g := fun _ => r) by assumption.
    repeat split; try reflexivity.
    intros Hreply. rewrite (RF Hreply).
    rewrite map_replace_split with (g := fun _ => reply) by assumption.
    reflexivity.
Qed.

Lemma redux_holds_the_collection_of_zustand_witness :
  unique_ids Sample.stored /\
  posts (final_state (createPost redux_hook Sample.clock Sample.draft Sample.stored)
                     (Resolved Sample.served))
  = posts (final_state (createPost zustand_hook Sample.clock Sample.draft
                          Sample.stored) (Resolved Sample.served)) /\
  posts (final_state (updatePost redux_hook 5 Sample.retitle Sample.stored)
                     (Resolved (mkPost 5 1 "Y" "e")))
  = posts (final_state (updatePost zustand_hook 5 Sample.retitle Sample.stored)
                       (Resolved (mkPost 5 1 "Y" "e"))) /\
  posts (final_state (deletePost redux_hook 5 Sample.stored)
                     (Rejected Sample.timeout))
  = posts (final_state (deletePost zustand_hook 5 Sample.stored)
                       (Rejected Sample.timeout)).
Proof.
  assert (ND : unique_ids Sample.stored).
  { unfold unique_ids. simpl. repeat constructor; simpl; intuition discriminate. }
  assert (Ht : Sample.clock > 1000) by reflexivity.
  assert (Hf : ~ In Sample.clock (ids (posts Sample.stored))).
  { simpl. unfold Sample.clock. intros [H | [H | [H | []]]]; discriminate. }
  pose proof (redux_holds_the_collection_of_zustand Sample.stored Sample.clock 5
                Sample.draft Sample.retitle (mkPost 5 1 "Y" "e") Sample.timeout ND)
    as [D [C U]].
  split; [exact ND|].
  split; [exact (proj2 (C Ht Hf (Resolved Sample.served)))|].
  split; [exact (proj2 (proj2 (U (or_introl eq_refl))) eq_refl)|].
  exact (proj2 (D (Rejected Sample.timeout))).
Defined.

(* ================================================================= *)
(** ** The recoil actions and the jotai hook *)

(** X12.  What the stale array costs the recoil actions when they run
    alone.  A create that the server confirms, with a temporary id that is
    new, leaves the collection exactly as it was before the create: the
    created record never enters it.  A delete of a record of a collection
    with distinct ids that the server rejects leaves one record more than
    before: the deleted record is there twice. *)
Theorem recoil_drops_created_and_doubles_deleted
  (s : PostsState) (t : Z) (data : PostData) (reply r : Post) (err : Js.Value) :
  (~ In t (ids (posts s)) ->
   posts (final_state (Recoil.createPost t data s) (Resolved reply)) = posts s)
  /\
  (unique_ids s -> In r (posts s) ->
   let rolled_back :=
     posts (final_state (Recoil.deletePost (id r) s) (Rejected err)) in
   Permutation rolled_back (r :: posts s) /\
   List.length rolled_back = S (List.length (posts s)) /\
   ~ NoDup (ids rolled_back)).
Proof.
  split.
  - intros Hfresh. unfold final_state. simpl.
    apply map_replace_absent with (g := fun _ => reply). exact Hfresh.
  - intros ND HIn. cbv zeta. unfold unique_ids in ND.
    pose proof (find_has_id_unique (posts s) r ND HIn) as Hfind.
    unfold final_state, Recoil.deletePost, Recoil.deletePostAction.
    rewrite Hfind. simpl.
    assert (HP : Permutation (Js.sort by_id (posts s ++ [r])) (r :: posts s)).
    { rewrite sort_perm. symmetry. apply Permutation_cons_append. }
    split; [exact HP|]. split.
    + rewrite (Permutation_length HP). reflexivity.
    + intros HN.
      assert (HN' : NoDup (ids (r :: posts s))).
      { eapply Permutation_NoDup; [|exact HN].
        apply Permutation_map. exact HP. }
      simpl in HN'. inversion HN' as [|x l Hx _]; subst.
      apply Hx. apply in_map. exact HIn.
Qed.

Lemma recoil_drops_created_and_doubles_deleted_witness :
  ~ In Sample.clock (ids (posts Sample.stored)) /\
  unique_ids Sample.stored /\ In Sample.post5 (posts Sample.stored) /\
  posts (final_state (Recoil.createPost Sample.clock Sample.draft Sample.stored)
                     (Resolved Sample.served))
  = [Sample.post3; Sample.post5; Sample.post7] /\
  List.length (posts (final_state (Recoil.deletePost 5 Sample.stored)
                                  (Rejected Sample.timeout))) = 4%nat.
Proof.
  assert (Hf : ~ In Sample.clock (ids (posts Sample.stored))).
  { simpl. unfold Sample.clock. intros [H | [H | [H | []]]]; discriminate. }
  assert (ND : unique_ids Sample.stored).
  { unfold unique_ids. simpl. repeat constructor; simpl; intuition discriminate. }
  assert (HIn : In Sample.post5 (posts Sample.stored)) by (simpl; auto).
  pose proof (recoil_drops_created_and_doubles_deleted Sample.stored Sample.clock
                Sample.draft Sample.served Sample.post5 Sample.timeout)
    as [C D].
  split; [exact Hf|]. split; [exact ND|]. split; [exact HIn|].
  split; [exact (C Hf)|].
  exact (proj1 (proj2 (D ND HIn))).
Defined.

(** X13.  The jotai hook behaves as the context-api provider: its fetch
    and its create and, for every array [captured] of the render that
    made the callbacks and every state of the store, its update and its
    delete suspend in the same state on the same remote call, or settle
    alike, and continue alike from every outcome and every state they
    may be resumed on.  Like the provider it looks records up in the
    render's array; when that array is the current collection it behaves
    as the zustand store, which looks them up in the store. *)
Theorem jotai_behaves_as_context_api
  (captured : list Post) (s : PostsState) (t i : Z) (data : PostData)
  (pdata : PartialPost) :
  same_behaviour (Jotai.fetchPosts s) (ContextApi.fetchPosts s) /\
  same_behaviour (Jotai.createPost t data s) (ContextApi.createPost t data s) /\
  same_behaviour (Jotai.updatePost captured i pdata s)
                 (ContextApi.updatePost captured i pdata s) /\
  same_behaviour (Jotai.deletePost captured i s)
                 (ContextApi.deletePost captured i s) /\
  (captured = posts s ->
   same_behaviour (Jotai.updatePost captured i pdata s)
                  (Zustand.updatePost i pdata s) /\
   same_behaviour (Jotai.deletePost captured i s)
                  (Zustand.deletePost i s)).
Proof.
  assert (F : same_behaviour (Jotai.fetchPosts s) (ContextApi.fetchPosts s)).
  { simpl. split; [reflexivity|]. split; [reflexivity|].
    intros [r | err] cur; reflexivity. }
  assert (C : same_behaviour (Jotai.createPost t data s)
                             (ContextApi.createPost t data s)).
  { simpl. split; [reflexivity|]. split; [reflexivity|].
    intros [r | err] cur; reflexivity. }
  split; [exact F|]. split; [exact C|].
  unfold Jotai.updatePost, Jotai.deletePost,
    ContextApi.updatePost, ContextApi.deletePost.
  split; [|split].
  - destruct (find (has_id i) captured); simpl; [|auto].
    split; [reflexivity|]. split; [reflexivity|].
    intros [r | err] cur; reflexivity.
  - destruct (find (has_id i) captured); simpl; [|auto].
    split; [reflexivity|]. split; [reflexivity|].
    intros [r | err] cur; reflexivity.
  - intros ->. unfold Zustand.updatePost, Zustand.deletePost.
    destruct (find (has_id i) (posts s)); simpl; [|auto].
    split; (split; [reflexivity|]; split; [reflexivity|];
            intros [r | err] cur; reflexivity).
Qed.

Lemma jotai_behaves_as_context_api_witness :
  posts Sample.stored = posts Sample.stored /\
  same_behaviour (Jotai.deletePost (posts Sample.stored) 5 Sample.stored)
                 (Zustand.deletePost 5 Sample.stored).
Proof.
  split; [reflexivity|].
  exact (proj2 (proj2 (proj2 (proj2 (proj2
    (jotai_behaves_as_context_api (posts Sample.stored) Sample.stored
       Sample.clock 5 Sample.draft Sample.retitle)))) eq_refl)).
Defined.

(* ================================================================= *)
(** ** The editor hook on top of the stores *)

(** The record under an id of a collection with distinct ids, and the
    collection split around it. *)
Lemma split_at_id (ps : list Post) (i : Z) :
  NoDup (ids ps) -> In i (ids ps) ->
  exists l1 r l2, ps = l1 ++ r :: l2 /\ id r = i /\
                  find (has_id i) ps = Some r /\
                  ~ In i (ids l1) /\ ~ In i (ids l2).
Proof.
  intros ND HIn. unfold ids in HIn. apply in_map_iff in HIn.
  destruct HIn as [r [Hr HIn]].
  destruct (split_at_record ps r ND HIn) as [l1 [l2 [E [N1 N2]]]].
  exists l1, r, l2. rewrite Hr in N1, N2.
  repeat split; try assumption.
  rewrite <- Hr. apply find_has_id_unique; assumption.
Qed.

(** X14.  An update submitted through the editor cannot change the id:
    the form's data have no [id] field.  So when the record being edited
    is in the collection (distinct ids) and the remote update fails, the
    zustand store is left with exactly the collection it had, the editor
    stays on the post it was editing, [onError] receives "Failed to update
    post" and the store's error is thrown on to the caller. *)
Theorem editor_failed_update_restores
  (s : PostsState) (editing : Post) (t : Z) (data : PostData) (err : Js.Value) :
  unique_ids s -> In (id editing) (ids (posts s)) ->
  let done :=
    usePostEditor.submitPost zustand_hook (Some editing) t data s (Rejected err) in
  let thrown := Js.as_Error err "Failed to update post" in
  posts (fst done) = posts s /\
  error (fst done) = Some thrown /\
  usePostEditor.editing_after (snd done) = Some editing /\
  usePostEditor.toast (snd done)
  = ("Failed to update post", usePostEditor.failure) /\
  usePostEditor.completion (snd done) = Threw thrown.
Proof.
  intros ND HIn. cbv zeta. unfold unique_ids in ND.
  destruct (split_at_id (posts s) (id editing) ND HIn)
    as [l1 [r [l2 [E [Hr [Hfind [N1 N2]]]]]]].
  unfold usePostEditor.submitPost, usePostEditor.submit_call, final_state, result.
  simpl. unfold Zustand.updatePost. rewrite Hfind. simpl. rewrite E.
  rewrite map_replace_split
    with (g := fun p => spread_merge p (usePostEditor.as_partial data))
    by assumption.
  rewrite map_replace_split with (g := fun _ => r) by assumption.
  repeat split; reflexivity.
Qed.

Lemma editor_failed_update_restores_witness :
  let done :=
    usePostEditor.submitPost zustand_hook (Some Sample.post5) Sample.clock
      Sample.draft Sample.stored (Rejected Sample.timeout) in
  unique_ids Sample.stored /\ In 5 (ids (posts Sample.stored)) /\
  posts (fst done) = [Sample.post3; Sample.post5; Sample.post7] /\
  usePostEditor.editing_after (snd done) = Some Sample.post5.
Proof.
  cbv zeta.
  assert (ND : unique_ids Sample.stored).
  { unfold unique_ids. simpl. repeat constructor; simpl; intuition discriminate. }
  assert (HIn : In (id Sample.post5) (ids (posts Sample.stored))) by (simpl; auto).
  pose proof (editor_failed_update_restores Sample.stored Sample.post5
                Sample.clock Sample.draft Sample.timeout ND HIn)
    as [H1 [_ [H3 _]]].
  split; [exact ND|]. split; [exact HIn|]. split; [exact H1 | exact H3].
Defined.

(** X15.  Submitting the edit of a post that is no longer in the
    collection, with the callbacks of the render of that collection: in
    the zustand, context-api, recoil, redux and jotai variants, whose
    [updatePost] looks the record up first, no remote call is issued, the
    store is unchanged, "Post not found" is thrown to the caller,
    [onError] receives "Failed to update post", and the editor stays in
    edit mode on that post. *)
Theorem editor_submit_of_missing_post
  (s : PostsState) (editing : Post) (t : Z) (data : PostData)
  (o : Outcome Post) :
  ~ In (id editing) (ids (posts s)) ->
  let stuck (h : UsePostsReturn) :=
    remote_call (usePostEditor.submit_call h (Some editing) t data s) = None /\
    usePostEditor.submitPost h (Some editing) t data s o
    = (s, usePostEditor.mkSubmitted (Some editing)
            ("Failed to update post", usePostEditor.failure)
            (Threw (Js.new_Error "Post not found"))) in
  stuck zustand_hook /\ stuck context_hook /\ stuck recoil_hook /\
  stuck redux_hook /\ stuck jotai_hook.
Proof.
  intros Habs. apply find_has_id_none in Habs. cbv zeta.
  unfold usePostEditor.submitPost, usePostEditor.submit_call, final_state, result.
  simpl.
  unfold ContextApi.rendered_updatePost, Redux.rendered_updatePost,
    Recoil.updatePost, Zustand.updatePost, ContextApi.updatePost,
    Redux.updatePost, Recoil.updatePostAction, Jotai.updatePost.
  rewrite Habs. simpl. repeat split; reflexivity.
Qed.

Lemma editor_submit_of_missing_post_witness :
  let gone := mkPost 4 1 "four" "d" in
  ~ In (id gone) (ids (posts Sample.stored)) /\
  usePostEditor.submitPost zustand_hook (Some gone) Sample.clock Sample.draft
    Sample.stored (Resolved Sample.served)
  = (Sample.stored,
     usePostEditor.mkSubmitted (Some gone)
       ("Failed to update post", usePostEditor.failure)
       (Threw (Js.new_Error "Post not found"))).
Proof.
  cbv zeta.
  assert (H : ~ In (id (mkPost 4 1 "four" "d")) (ids (posts Sample.stored))).
  { simpl. intros [H | [H | [H | []]]]; discriminate. }
  split; [exact H|].
  exact (proj2 (proj1
    (editor_submit_of_missing_post Sample.stored (mkPost 4 1 "four" "d")
       Sample.clock Sample.draft (Resolved Sample.served) H))).
Defined.

(** X16.  A submit that the server confirms.  While a post of the
    collection (distinct ids) is being edited the editor calls the remote
    update under that post's id with the form's data; at once the record
    shows the form's data under its old id, then the server's record takes
    its place, at the same position, and nothing is added; the editor
    leaves edit mode and [onSuccess] receives "Post updated
    successfully!".  With no post being edited the submit is a create:
    the server's record ends first in the collection and [onSuccess]
    receives "Post created successfully!". *)
Theorem editor_confirmed_submit
  (s : PostsState) (editing : Post) (t : Z) (data : PostData) (reply : Post) :
  (unique_ids s -> In (id editing) (ids (posts s)) ->
   let call := usePostEditor.submit_call zustand_hook (Some editing) t data s in
   let done := usePostEditor.submitPost zustand_hook (Some editing) t data s
                 (Resolved reply) in
   remote_call call
   = Some (CallUpdate (id editing) (usePostEditor.as_partial data)) /\
   (exists l1 r l2,
       posts s = l1 ++ r :: l2 /\ id r = id editing /\
       posts (immediate call)
       = l1 ++ mkPost (id r) (d_userId data) (d_title data) (d_body data) :: l2 /\
       posts (fst done) = l1 ++ reply :: l2) /\
   snd done = usePostEditor.mkSubmitted None
                ("Post updated successfully!", usePostEditor.success)
                (Returned tt))
  /\
  (let call := usePostEditor.submit_call zustand_hook None t data s in
   let done := usePostEditor.submitPost zustand_hook None t data s
                 (Resolved reply) in
   remote_call call = Some (CallCreate data) /\
   nth_error (posts (fst done)) 0 = Some reply /\
   List.length (posts (fst done)) = S (List.length (posts s)) /\
   snd done = usePostEditor.mkSubmitted None
                ("Post created successfully!", usePostEditor.success)
                (Returned tt)).
Proof.
  split.
  - intros ND HIn. cbv zeta. unfold unique_ids in ND.
    destruct (split_at_id (posts s) (id editing) ND HIn)
      as [l1 [r [l2 [E [Hr [Hfind [N1 N2]]]]]]].
    unfold usePostEditor.submitPost, usePostEditor.submit_call, final_state, result.
    simpl. unfold Zustand.updatePost. rewrite Hfind. simpl. rewrite E.
    rewrite map_replace_split
      with (g := fun p => spread_merge p (usePostEditor.as_partial data))
      by assumption.
    rewrite map_replace_split with (g := fun _ => reply) by assumption.
    repeat split; try reflexivity.
    exists l1, r, l2. repeat split; try reflexivity. exact Hr.
  - cbv zeta.
    unfold usePostEditor.submitPost, usePostEditor.submit_call, final_state, result.
    simpl. rewrite has_id_placeholder. simpl. rewrite length_map.
    repeat split; reflexivity.
Qed.

Lemma editor_confirmed_submit_witness :
  unique_ids Sample.stored /\ In 5 (ids (posts Sample.stored)) /\
  snd (usePostEditor.submitPost zustand_hook (Some Sample.post5) Sample.clock
         Sample.draft Sample.stored (Resolved (mkPost 5 1 "A" "B")))
  = usePostEditor.mkSubmitted None
      ("Post updated successfully!", usePostEditor.success) (Returned tt).
Proof.
  assert (ND : unique_ids Sample.stored).
  { unfold unique_ids. simpl. repeat constructor; simpl; intuition discriminate. }
  assert (HIn : In (id Sample.post5) (ids (posts Sample.stored))) by (simpl; auto).
  split; [exact ND|]. split; [exact HIn|].
  exact (proj2 (proj2 (proj1
    (editor_confirmed_submit Sample.stored Sample.post5 Sample.clock
       Sample.draft (mkPost 5 1 "A" "B")) ND HIn))).
Defined.

(* ================================================================= *)
(** ** The API client *)

Lemma interceptor_throws_an_Error (e : ApiClient.AxiosError) :
  exists c m, ApiClient.interceptor e = Js.ErrorObject c m.
Proof.
  unfold ApiClient.interceptor.
  destruct (ApiClient.is_code "ECONNABORTED" e); [eexists; eexists; reflexivity|].
  destruct (ApiClient.response e); [eexists; eexists; reflexivity|].
  destruct (ApiClient.request e); eexists; eexists; reflexivity.
Qed.

(** X17.  Whatever makes the HTTP request fail, the four methods the
    stores call reject with a plain [Error] that carries only the fixed
    message of the operation: the interceptor's diagnosis (timeout, server
    status, network) never reaches a store, whose [error] after a failed
    create is always "Failed to create post".  [getById] alone forwards
    the interceptor's message, and because the interceptor always throws
    an [Error] its own "Post not found" fallback is never used: a 404
    answer is reported as "Server error: 404" followed by the status
    text. *)
Theorem postsApi_hides_the_cause
  (e : ApiClient.AxiosError) (s : PostsState) (t : Z) (data : PostData) :
  postsApi.getAll (ApiClient.awaited (ApiClient.Failed e))
  = Rejected (Js.ErrorObject "Error" "Failed to fetch posts") /\
  postsApi.create (ApiClient.awaited (ApiClient.Failed e))
  = Rejected (Js.ErrorObject "Error" "Failed to create post") /\
  postsApi.update (ApiClient.awaited (ApiClient.Failed e))
  = Rejected (Js.ErrorObject "Error" "Failed to update post") /\
  postsApi.delete (ApiClient.awaited (ApiClient.Failed e))
  = Rejected (Js.ErrorObject "Error" "Failed to delete post") /\
  error (final_state (Zustand.createPost t data s)
                     (postsApi.create (ApiClient.awaited (ApiClient.Failed e))))
  = Some (Js.ErrorObject "Error" "Failed to create post") /\
  (exists m,
      Js.message_of (ApiClient.interceptor e) = Some m /\
      ApiClient.getById (ApiClient.awaited (ApiClient.Failed e))
      = Rejected (Js.ErrorObject "Error" m)) /\
  (forall txt,
      ApiClient.is_code "ECONNABORTED" e = false ->
      ApiClient.response e = Some (ApiClient.mkResponse 404 txt) ->
      ApiClient.getById (ApiClient.awaited (ApiClient.Failed e))
      = Rejected (Js.ErrorObject "Error" ("Server error: 404 " ++ txt))).
Proof.
  repeat split; try reflexivity.
  - destruct (interceptor_throws_an_Error e) as [c [m Hm]].
    exists m. simpl. rewrite Hm. split; reflexivity.
  - intros txt Hcode Hresp. simpl. unfold ApiClient.interceptor.
    rewrite Hcode, Hresp. reflexivity.
Qed.

Lemma postsApi_hides_the_cause_witness :
  let not_found :=
    ApiClient.mkAxiosError (Some "ERR_BAD_REQUEST")
      (Some (ApiClient.mkResponse 404 "Not Found")) true
      "Request failed with status code 404" in
  ApiClient.is_code "ECONNABORTED" not_found = false /\
  ApiClient.getById (ApiClient.awaited (ApiClient.Failed not_found))
  = Rejected (Js.ErrorObject "Error" "Server error: 404 Not Found").
Proof.
  cbv zeta. split; [reflexivity|].
  exact (proj2 (proj2 (proj2 (proj2 (proj2 (proj2
    (postsApi_hides_the_cause
       (ApiClient.mkAxiosError (Some "ERR_BAD_REQUEST")
          (Some (ApiClient.mkResponse 404 "Not Found")) true
          "Request failed with status code 404")
       Sample.stored Sample.clock Sample.draft))))))
    "Not Found" eq_refl eq_refl).
Defined.

(** X18.  [isNetworkError] recognises what the interceptor throws for a
    timeout and for a request that got no response, but not what
    [postsApi] makes of it: on the rejection of [getAll], [create],
    [update] or [delete] it answers false, whatever the cause. *)
Theorem isNetworkError_misses_postsApi_failures (e : ApiClient.AxiosError) :
  (ApiClient.is_code "ECONNABORTED" e = true ->
   Utils.isNetworkError (ApiClient.interceptor e) = true) /\
  (ApiClient.is_code "ECONNABORTED" e = false ->
   ApiClient.response e = None -> ApiClient.request e = true ->
   Utils.isNetworkError (ApiClient.interceptor e) = true) /\
  (forall v,
      postsApi.getAll (ApiClient.awaited (ApiClient.Failed e)) = Rejected v \/
      postsApi.create (ApiClient.awaited (ApiClient.Failed e)) = Rejected v \/
      postsApi.update (ApiClient.awaited (ApiClient.Failed e)) = Rejected v \/
      postsApi.delete (ApiClient.awaited (ApiClient.Failed e)) = Rejected v ->
      Utils.isNetworkError v = false).
Proof.
  split; [|split].
  - intros Hc. unfold ApiClient.interceptor. rewrite Hc. reflexivity.
  - intros Hc Hr Hq. unfold ApiClient.interceptor. rewrite Hc, Hr, Hq.
    reflexivity.
  - intros v [H | [H | [H | H]]]; simpl in H; injection H as <-; reflexivity.
Qed.

Lemma isNetworkError_misses_postsApi_failures_witness :
  let timed_out :=
    ApiClient.mkAxiosError (Some "ECONNABORTED") None true
      "timeout of 10000ms exceeded" in
  ApiClient.is_code "ECONNABORTED" timed_out = true /\
  Utils.isNetworkError (ApiClient.interceptor timed_out) = true /\
  Utils.isNetworkError (Js.new_Error "Failed to fetch posts") = false.
Proof.
  cbv zeta.
  pose proof (isNetworkError_misses_postsApi_failures
                (ApiClient.mkAxiosError (Some "ECONNABORTED") None true
                   "timeout of 10000ms exceeded")) as [H1 [_ H3]].
  split; [reflexivity|]. split; [exact (H1 eq_refl)|].
  apply H3. left. reflexivity.
Defined.

(* ================================================================= *)
(** ** Paging *)

Section Paging.

(** A page of [PostList], for a page number from 1 and a positive page
    size, is the chunk of [itemsPerPage] records that starts after the
    previous pages. *)
Lemma paginatedPosts_chunk (l : list Post) (page n : Z) :
  1 <= page -> 0 < n ->
  PostList.paginatedPosts l page n
  = firstn (Z.to_nat n) (skipn (Z.to_nat ((page - 1) * n)) l).
Proof.
  intros Hp Hn. unfold PostList.paginatedPosts, PostList.slice.
  set (len := Z.of_nat (List.length l)).
  set (start := (page - 1) * n).
  assert (Hs : 0 <= start) by (unfold start; nia).
  assert (E1 : (start <? 0) = false) by (apply Z.ltb_ge; lia).
  assert (E2 : (start + n <? 0) = false) by (apply Z.ltb_ge; lia).
  rewrite E1, E2.
  destruct (Z_le_gt_dec start len) as [Hle | Hgt].
  - rewrite (Z.min_l start len) by lia.
    rewrite <- (firstn_all (skipn (Z.to_nat start) l)) at 2.
    rewrite firstn_firstn. f_equal.
    rewrite length_skipn. unfold len. lia.
  - rewrite (Z.min_r start len) by lia.
    rewrite (Z.min_r (start + n) len) by lia.
    replace (Z.to_nat (len - len)) with 0%nat by lia. simpl.
    rewrite skipn_all2 by (unfold len in Hgt; lia).
    rewrite firstn_nil. reflexivity.
Qed.

Lemma firstn_plus (A : Type) (a b : nat) (l : list A) :
  firstn (a + b) l = firstn a l ++ firstn b (skipn a l).
Proof.
  revert l. induction a as [|a IH]; intros l; simpl; [reflexivity|].
  destruct l as [|x l]; simpl.
  - rewrite firstn_nil. reflexivity.
  - rewrite IH. reflexivity.
Qed.

(** The first [k] chunks of size [n] make up the first [k * n] records. *)
Lemma chunks_concat (l : list Post) (n k : nat) :
  List.concat (map (fun j => firstn n (skipn (j * n) l)) (seq 0 k))
  = firstn (k * n) l.
Proof.
  induction k as [|k IH]; [reflexivity|].
  rewrite seq_S, map_app, concat_app, IH. simpl.
  rewrite app_nil_r. rewrite Nat.add_comm. symmetry. apply firstn_plus.
Qed.

Lemma totalPages_covers (len n : Z) :
  0 <= len -> 0 < n -> len <= Pagination.totalPages len n * n.
Proof.
  intros Hl Hn. unfold Pagination.totalPages.
  pose proof (Z.div_mod (len + n - 1) n ltac:(lia)) as Hdm.
  pose proof (Z.mod_pos_bound (len + n - 1) n Hn) as Hb.
  nia.
Qed.

Lemma totalPages_tight (len n : Z) :
  0 <= len -> 0 < n -> (Pagination.totalPages len n - 1) * n < len \/ len = 0.
Proof.
  intros Hl Hn. unfold Pagination.totalPages.
  pose proof (Z.div_mod (len + n - 1) n ltac:(lia)) as Hdm.
  pose proof (Z.mod_pos_bound (len + n - 1) n Hn) as Hb.
  destruct (Z.eq_dec len 0); [right; assumption | left; nia].
Qed.

End Paging.

(** X19.  The pages of [PostList] partition the list: for a positive page
    size, the pages 1 to [totalPages] (as [Pagination] counts them), one
    after the other, are exactly the records of the list, in order. *)
Theorem pages_partition_the_list (l : list Post) (n : Z) :
  0 < n ->
  let total := Pagination.totalPages (Z.of_nat (List.length l)) n in
  List.concat (map (fun page => PostList.paginatedPosts l page n)
              (Pagination.range 1 total))
  = l.
Proof.
  intros Hn. cbv zeta.
  set (total := Pagination.totalPages (Z.of_nat (List.length l)) n).
  assert (Ht : 0 <= total).
  { unfold total, Pagination.totalPages. apply Z.div_pos; lia. }
  unfold Pagination.range. rewrite map_map.
  replace (total - 1 + 1) with total by lia.
  rewrite map_ext with
    (g := fun j => firstn (Z.to_nat n) (skipn (j * Z.to_nat n) l)).
  - rewrite chunks_concat. apply firstn_all2.
    pose proof (totalPages_covers (Z.of_nat (List.length l)) n
                  ltac:(lia) Hn) as Hc.
    fold total in Hc. nia.
  - intros j. rewrite paginatedPosts_chunk by lia.
    do 2 f_equal. nia.
Qed.

Lemma pages_partition_the_list_witness :
  0 < 2 /\
  Pagination.totalPages 3 2 = 2 /\
  PostList.paginatedPosts (posts Sample.stored) 1 2
  ++ PostList.paginatedPosts (posts Sample.stored) 2 2 ++ []
  = [Sample.post3; Sample.post5; Sample.post7].
Proof.
  split; [reflexivity|]. split; [reflexivity|].
  exact (pages_partition_the_list (posts Sample.stored) 2 eq_refl).
Defined.

Section VisiblePages.

Lemma numbers_app (l1 l2 : list Pagination.Entry) :
  Pagination.numbers (l1 ++ l2) = Pagination.numbers l1 ++ Pagination.numbers l2.
Proof.
  induction l1 as [|x l1 IH]; simpl; [reflexivity|].
  destruct x; simpl; rewrite IH; reflexivity.
Qed.

Lemma numbers_map (l : list Z) :
  Pagination.numbers (map Pagination.PageNumber l) = l.
Proof. induction l as [|x l IH]; simpl; [|rewrite IH]; reflexivity. Qed.

Lemma range_shape (a : Z) (k : nat) :
  map (fun j => a + Z.of_nat j) (seq 0 (S k))
  = a :: map (fun j => (a + 1) + Z.of_nat j) (seq 0 k).
Proof.
  simpl. f_equal; [lia|]. rewrite <- seq_shift, map_map.
  apply map_ext. intros j. lia.
Qed.

Lemma in_range (a b x : Z) : In x (Pagination.range a b) <-> a <= x <= b.
Proof.
  unfold Pagination.range. rewrite in_map_iff. split.
  - intros [j [Hj HIn]]. apply in_seq in HIn. lia.
  - intros H. exists (Z.to_nat (x - a)). split; [lia|].
    apply in_seq. lia.
Qed.

Lemma range_increasing (a b : Z) : StronglySorted Z.lt (Pagination.range a b).
Proof.
  unfold Pagination.range.
  generalize (Z.to_nat (b - a + 1)) as k. intros k. revert a.
  induction k as [|k IH]; intros a; [constructor|].
  rewrite range_shape. constructor; [apply IH|].
  apply Forall_forall. intros x HIn. apply in_map_iff in HIn.
  destruct HIn as [j [Hj _]]. lia.
Qed.

Lemma length_range (a b : Z) :
  List.length (Pagination.range a b) = Z.to_nat (b - a + 1).
Proof. unfold Pagination.range. rewrite length_map, length_seq. reflexivity. Qed.

Lemma increasing_app (l1 l2 : list Z) :
  StronglySorted Z.lt l1 -> StronglySorted Z.lt l2 ->
  (forall x y, In x l1 -> In y l2 -> x < y) ->
  StronglySorted Z.lt (l1 ++ l2).
Proof.
  induction l1 as [|x l1 IH]; simpl; intros S1 S2 H; [exact S2|].
  inversion S1 as [|x' l' S1' Hall]; subst.
  constructor.
  - apply IH; auto.
  - apply Forall_app. split; [exact Hall|].
    apply Forall_forall. intros y Hy. apply H; auto.
Qed.

(** The window of pages around the current one. *)
Lemma window_bounds (cur total maxVisible : Z) :
  1 <= cur <= total -> 1 <= maxVisible ->
  let a := Pagination.startPage cur total maxVisible in
  let b := Pagination.endPage cur total maxVisible in
  1 <= a /\ a <= cur /\ cur <= b /\ b <= total /\
  b - a + 1 <= 2 * (maxVisible / 2) + 1.
Proof.
  intros Hc Hm. cbv zeta. unfold Pagination.startPage, Pagination.endPage.
  pose proof (Z.div_mod maxVisible 2 ltac:(lia)) as Hdm.
  pose proof (Z.mod_pos_bound maxVisible 2 ltac:(lia)) as Hb.
  set (half := maxVisible / 2) in *.
  destruct (Z.gtb_spec cur (total - half));
    destruct (Z.leb_spec cur half); lia.
Qed.

(** The page numbers shown, spelled out. *)
Lemma numbers_of_visible_pages (cur total maxVisible : Z) :
  let a := Pagination.startPage cur total maxVisible in
  let b := Pagination.endPage cur total maxVisible in
  Pagination.numbers (Pagination.getVisiblePages cur total maxVisible)
  = (if a >? 1 then [1] else []) ++ Pagination.range a b
    ++ (if b <? total then [total] else []).
Proof.
  cbv zeta. unfold Pagination.getVisiblePages.
  rewrite !numbers_app, numbers_map.
  f_equal; [|f_equal].
  - destruct (_ >? 1); [|reflexivity].
    destruct (_ >? 2); reflexivity.
  - destruct (_ <? total); [|reflexivity].
    destruct (_ <? total - 1); reflexivity.
Qed.

End VisiblePages.

(** X20.  The pager, for a current page between 1 and the number of pages
    and at least one visible page asked for: the page buttons it shows
    are numbered in strictly increasing order (so no number twice), every
    number is between 1 and the number of pages, the current page, page 1
    and the last page are always among them, and there are at most
    [2 * floor(maxVisiblePages / 2) + 3] of them. *)
Theorem visible_pages_are_in_order
  (currentPage totalPages maxVisiblePages : Z) :
  1 <= currentPage <= totalPages -> 1 <= maxVisiblePages ->
  let shown :=
    Pagination.numbers
      (Pagination.getVisiblePages currentPage totalPages maxVisiblePages) in
  StronglySorted Z.lt shown /\
  (forall n, In n shown -> 1 <= n <= totalPages) /\
  In currentPage shown /\ In 1 shown /\ In totalPages shown /\
  Z.of_nat (List.length shown) <= 2 * (maxVisiblePages / 2) + 3.
Proof.
  intros Hc Hm. cbv zeta. rewrite numbers_of_visible_pages.
  destruct (window_bounds currentPage totalPages maxVisiblePages Hc Hm)
    as [Ha [Hac [Hcb [Hb Hw]]]].
  set (a := Pagination.startPage currentPage totalPages maxVisiblePages) in *.
  set (b := Pagination.endPage currentPage totalPages maxVisiblePages) in *.
  assert (Inner : StronglySorted Z.lt
                    (Pagination.range a b ++ (if b <? totalPages then [totalPages] else []))).
  { apply increasing_app.
    - apply range_increasing.
    - destruct (b <? totalPages); repeat constructor.
    - intros x y Hx Hy. apply in_range in Hx.
      destruct (Z.ltb_spec b totalPages); simpl in Hy; [|tauto].
      destruct Hy as [<- | []]. lia. }
  split; [|split; [|split; [|split; [|split]]]].
  - apply increasing_app; [destruct (a >? 1); repeat constructor | exact Inner |].
    intros x y Hx Hy.
    destruct (Z.gtb_spec a 1); simpl in Hx; [|tauto].
    destruct Hx as [<- | []].
    apply in_app_or in Hy. destruct Hy as [Hy | Hy].
    + apply in_range in Hy. lia.
    + destruct (Z.ltb_spec b totalPages); simpl in Hy; [|tauto].
      destruct Hy as [<- | []]. lia.
  - intros n HIn. apply in_app_or in HIn. destruct HIn as [HIn | HIn].
    + destruct (a >? 1); simpl in HIn; [|tauto].
      destruct HIn as [<- | []]. lia.
    + apply in_app_or in HIn. destruct HIn as [HIn | HIn].
      * apply in_range in HIn. lia.
      * destruct (b <? totalPages); simpl in HIn; [|tauto].
        destruct HIn as [<- | []]. lia.
  - apply in_or_app. right. apply in_or_app. left. apply in_range. lia.
  - destruct (Z.gtb_spec a 1).
    + left. reflexivity.
    + apply in_or_app. right. apply in_or_app. left. apply in_range. lia.
  - apply in_or_app. right. apply in_or_app.
    destruct (Z.ltb_spec b totalPages).
    + right. left. reflexivity.
    + left. apply in_range. lia.
  - rewrite !length_app, length_range.
    destruct (a >? 1); destruct (b <? totalPages); simpl List.length; lia.
Qed.

Lemma visible_pages_are_in_order_witness :
  1 <= 7 <= 20 /\ 1 <= 5 /\
  Pagination.getVisiblePages 7 20 5
  = [Pagination.PageNumber 1; Pagination.EllipsisStart;
     Pagination.PageNumber 5; Pagination.PageNumber 6; Pagination.PageNumber 7;
     Pagination.PageNumber 8; Pagination.PageNumber 9;
     Pagination.EllipsisEnd; Pagination.PageNumber 20] /\
  StronglySorted Z.lt [1; 5; 6; 7; 8; 9; 20].
Proof.
  assert (H1 : 1 <= 7 <= 20) by lia.
  assert (H2 : 1 <= 5) by lia.
  split; [exact H1|]. split; [exact H2|]. split; [reflexivity|].
  exact (proj1 (visible_pages_are_in_order 7 20 5 H1 H2)).
Defined.

Lemma page_starts_inside (len n page : Z) :
  0 <= len -> 0 < n -> 1 <= page <= Pagination.totalPages len n ->
  (page - 1) * n < len.
Proof.
  intros Hl Hn Hp.
  destruct (totalPages_tight len n Hl Hn) as [H | H].
  - nia.
  - subst len. unfold Pagination.totalPages in Hp.
    rewrite Z.div_small in Hp by lia. lia.
Qed.

(** X21.  "Showing a to b of N results": on a page between 1 and the
    number of pages, with a positive page size, the line of [Pagination]
    counts exactly the records that [PostList] shows on that page, which
    are the records number a to b of the list and at least one. *)
Theorem shown_range_is_the_page (l : list Post) (n page : Z) :
  0 < n ->
  1 <= page <= Pagination.totalPages (Z.of_nat (List.length l)) n ->
  let shown := PostList.paginatedPosts l page n in
  let a := Pagination.startItem page n in
  let b := Pagination.endItem page n (Z.of_nat (List.length l)) in
  shown <> [] /\
  Z.of_nat (List.length shown) = b - a + 1 /\
  forall k, (k < List.length shown)%nat ->
            nth_error shown k = nth_error l (Z.to_nat (a - 1) + k).
Proof.
  intros Hn Hp. cbv zeta.
  pose proof (page_starts_inside (Z.of_nat (List.length l)) n page
                ltac:(lia) Hn Hp) as Hin.
  rewrite paginatedPosts_chunk by lia.
  unfold Pagination.startItem, Pagination.endItem.
  assert (Hlen : List.length (firstn (Z.to_nat n)
                                (skipn (Z.to_nat ((page - 1) * n)) l))
                 = Nat.min (Z.to_nat n)
                     (List.length l - Z.to_nat ((page - 1) * n))).
  { rewrite length_firstn, length_skipn. reflexivity. }
  split; [|split].
  - intros Hnil. rewrite Hnil in Hlen. simpl in Hlen. nia.
  - rewrite Hlen. nia.
  - intros k Hk. rewrite Hlen in Hk.
    rewrite nth_error_firstn.
    assert (E : (k <? Z.to_nat n)%nat = true) by (apply Nat.ltb_lt; lia).
    rewrite E. rewrite nth_error_skipn. f_equal.
    replace ((page - 1) * n + 1 - 1) with ((page - 1) * n) by lia.
    reflexivity.
Qed.

Lemma shown_range_is_the_page_witness :
  0 < 2 /\
  1 <= 2 <= Pagination.totalPages (Z.of_nat (List.length (posts Sample.stored))) 2 /\
  PostList.paginatedPosts (posts Sample.stored) 2 2 = [Sample.post7] /\
  Pagination.startItem 2 2 = 3 /\ Pagination.endItem 2 2 3 = 3 /\
  PostList.paginatedPosts (posts Sample.stored) 2 2 <> [].
Proof.
  assert (H1 : 0 < 2) by lia.
  assert (H2 : 1 <= 2 <= Pagination.totalPages
                           (Z.of_nat (List.length (posts Sample.stored))) 2).
  { vm_compute. split; discriminate. }
  split; [exact H1|]. split; [exact H2|].
  split; [reflexivity|]. split; [reflexivity|]. split; [reflexivity|].
  exact (proj1 (shown_range_is_the_page (posts Sample.stored) 2 2 H1 H2)).
Defined.

(** X22.  [PostList] keeps its current page when the list shrinks.  When
    the last page (page 2 or later) holds a single record and that record
    is deleted, the optimistic step of the zustand store leaves a list
    that ends with the previous page: the page [PostList] still shows is
    then empty although the list is not, and the number of pages has
    dropped below the page shown; with page 2 the pager is not even
    rendered any more. *)
Theorem deleting_the_last_record_empties_the_page
  (s : PostsState) (front : list Post) (r : Post) (n page : Z) :
  0 < n -> 2 <= page -> unique_ids s ->
  posts s = front ++ [r] ->
  Z.of_nat (List.length front) = (page - 1) * n ->
  let after := immediate (Zustand.deletePost (id r) s) in
  PostList.paginatedPosts (posts s) page n = [r] /\
  posts after = front /\ front <> [] /\
  PostList.paginatedPosts (posts after) page n = [] /\
  Pagination.totalPages (Z.of_nat (List.length (posts after))) n = page - 1 /\
  (page = 2 -> PostList.shows_pagination (posts after) n = false).
Proof.
  intros Hn Hp ND E Hlen. cbv zeta. unfold unique_ids in ND.
  assert (HIn : In r (posts s)).
  { rewrite E. apply in_or_app. right. left. reflexivity. }
  pose proof (find_has_id_unique (posts s) r ND HIn) as Hfind.
  assert (Hafter : posts (immediate (Zustand.deletePost (id r) s)) = front).
  { unfold Zustand.deletePost. rewrite Hfind. simpl. rewrite E.
    rewrite E, ids_app in ND. simpl in ND.
    pose proof (NoDup_remove_2 _ _ _ ND) as Hnot. rewrite app_nil_r in Hnot.
    rewrite filter_app. simpl. rewrite lacks_id_self, app_nil_r.
    apply filter_lacks_absent. exact Hnot. }
  rewrite Hafter.
  assert (Hfront : front <> []).
  { intros ->. simpl in Hlen. nia. }
  split; [|split; [exact eq_refl|split; [exact Hfront|split; [|split]]]].
  - rewrite paginatedPosts_chunk by lia. rewrite E.
    replace (Z.to_nat ((page - 1) * n)) with (List.length front) by lia.
    rewrite skipn_app, skipn_all, Nat.sub_diag. simpl.
    destruct (Z.to_nat n) eqn:En; [lia|].
    simpl. rewrite firstn_nil. reflexivity.
  - rewrite paginatedPosts_chunk by lia.
    rewrite skipn_all2 by lia. apply firstn_nil.
  - unfold Pagination.totalPages. rewrite Hlen.
    replace ((page - 1) * n + n - 1) with ((n - 1) + (page - 1) * n) by lia.
    rewrite Z.div_add by lia. rewrite Z.div_small by lia. lia.
  - intros ->. unfold PostList.shows_pagination. rewrite Hlen.
    rewrite Z.gtb_ltb. apply Z.ltb_ge. lia.
Qed.

Lemma deleting_the_last_record_empties_the_page_witness :
  let after := immediate (Zustand.deletePost 7 Sample.stored) in
  0 < 2 /\ 2 <= 2 /\ unique_ids Sample.stored /\
  PostList.paginatedPosts (posts Sample.stored) 2 2 = [Sample.post7] /\
  posts after = [Sample.post3; Sample.post5] /\
  PostList.paginatedPosts (posts after) 2 2 = [] /\
  PostList.shows_pagination (posts after) 2 = false.
Proof.
  cbv zeta.
  assert (H1 : 0 < 2) by lia.
  assert (H2 : 2 <= 2) by lia.
  assert (ND : unique_ids Sample.stored).
  { unfold unique_ids. simpl. repeat constructor; simpl; intuition discriminate. }
  pose proof (deleting_the_last_record_empties_the_page Sample.stored
                [Sample.post3; Sample.post5] Sample.post7 2 2
                H1 H2 ND eq_refl eq_refl) as [P1 [P2 [_ [P4 [_ P6]]]]].
  split; [exact H1|]. split; [exact H2|]. split; [exact ND|].
  split; [exact P1|]. split; [exact P2|]. split; [exact P4|].
  exact (P6 eq_refl).
Defined.

(* ================================================================= *)
(** ** Races *)

(** X23.  The context-api provider looks the record up in the array of
    the render that made the callback, not in the current collection.  A
    delete called twice from one render (distinct ids, the record in the
    collection) therefore issues the remote call twice, where the zustand
    store answers the second call with "Post not found"; and when both
    remote calls fail, each rollback puts the record back: the collection
    ends with the record twice. *)
Theorem context_delete_twice_from_one_render
  (s : PostsState) (r : Post) (e1 e2 : Js.Value) :
  unique_ids s -> In r (posts s) ->
  let first := ContextApi.deletePost (posts s) (id r) s in
  let second := ContextApi.deletePost (posts s) (id r) (immediate first) in
  let first_failed := fst (resume_on first (Rejected e1) (immediate second)) in
  let both_failed := fst (resume_on second (Rejected e2) first_failed) in
  remote_call first = Some (CallDelete (id r)) /\
  remote_call second = Some (CallDelete (id r)) /\
  Zustand.deletePost (id r) (immediate (Zustand.deletePost (id r) s))
  = Settled (immediate (Zustand.deletePost (id r) s))
            (Threw (Js.new_Error "Post not found")) /\
  Permutation (posts first_failed) (posts s) /\
  Permutation (posts both_failed) (r :: posts s) /\
  ~ NoDup (ids (posts both_failed)).
Proof.
  intros ND HIn. cbv zeta. unfold unique_ids in ND.
  pose proof (find_has_id_unique (posts s) r ND HIn) as Hfind.
  assert (Hz : ~ In (id r)
                 (ids (posts (immediate (Zustand.deletePost (id r) s))))).
  { unfold Zustand.deletePost. rewrite Hfind. simpl.
    unfold ids. rewrite in_map_iff. intros [q [Hq Hq']].
    apply filter_In in Hq'. destruct Hq' as [_ Hq'].
    apply lacks_id_true in Hq'. auto. }
  apply find_has_id_none in Hz.
  unfold ContextApi.deletePost. rewrite Hfind. simpl.
  assert (P1 : Permutation
                 (Js.sort by_id
                    (filter (lacks_id (id r)) (filter (lacks_id (id r)) (posts s))
                     ++ [r]))
                 (posts s)).
  { rewrite sort_perm.
    rewrite (filter_lacks_absent (id r) (filter (lacks_id (id r)) (posts s))).
    - apply filter_lacks_perm; assumption.
    - unfold ids. rewrite in_map_iff. intros [q [Hq Hq']].
      apply filter_In in Hq'. destruct Hq' as [_ Hq'].
      apply lacks_id_true in Hq'. auto. }
  assert (P2 : Permutation
                 (Js.sort by_id
                    (Js.sort by_id
                       (filter (lacks_id (id r))
                          (filter (lacks_id (id r)) (posts s)) ++ [r])
                     ++ [r]))
                 (r :: posts s)).
  { rewrite sort_perm. rewrite <- Permutation_cons_append.
    constructor. exact P1. }
  split; [reflexivity|]. split; [reflexivity|].
  split.
  { unfold Zustand.deletePost at 1. rewrite Hz. reflexivity. }
  split; [exact P1|]. split; [exact P2|].
  intros HN.
  assert (HN' : NoDup (ids (r :: posts s))).
  { eapply Permutation_NoDup; [|exact HN]. apply Permutation_map. exact P2. }
  simpl in HN'. inversion HN' as [|x l Hx _]; subst.
  apply Hx. apply in_map. exact HIn.
Qed.

Lemma context_delete_twice_from_one_render_witness :
  let first := ContextApi.deletePost (posts Sample.stored) 5 Sample.stored in
  let second := ContextApi.deletePost (posts Sample.stored) 5 (immediate first) in
  let first_failed :=
    fst (resume_on first (Rejected Sample.timeout) (immediate second)) in
  unique_ids Sample.stored /\ In Sample.post5 (posts Sample.stored) /\
  posts (fst (resume_on second (Rejected Sample.timeout) first_failed))
  = [Sample.post3; Sample.post5; Sample.post5; Sample.post7] /\
  remote_call second = Some (CallDelete 5).
Proof.
  cbv zeta.
  assert (ND : unique_ids Sample.stored).
  { unfold unique_ids. simpl. repeat constructor; simpl; intuition discriminate. }
  assert (HIn : In Sample.post5 (posts Sample.stored)) by (simpl; auto).
  split; [exact ND|]. split; [exact HIn|]. split; [reflexivity|].
  exact (proj1 (proj2
    (context_delete_twice_from_one_render Sample.stored Sample.post5
       Sample.timeout Sample.timeout ND HIn))).
Defined.

(** X24.  A create submitted while the fetch is still pending is lost
    when the fetch answers first: the fetch replaces the collection,
    placeholder included, and the create's reconciliation then finds no
    record under the temporary id.  The caller is handed the server's
    record as a success, but the collection is the fetched sequence (which
    holds no record under the temporary id) and nothing else. *)
Theorem create_during_fetch_is_lost
  (s : PostsState) (S : list Post) (t : Z) (data : PostData) (reply : Post) :
  ~ In t (ids S) ->
  let fetching := Zustand.fetchPosts s in
  let creating := Zustand.createPost t data (immediate fetching) in
  let fetched := fst (resume_on fetching (Resolved S) (immediate creating)) in
  let created := resume_on creating (Resolved reply) fetched in
  posts (immediate creating) = spread_create t data :: posts s /\
  posts fetched = S /\
  posts (fst created) = S /\
  snd created = Returned reply.
Proof.
  intros Hfresh. cbv zeta. simpl.
  rewrite map_replace_absent with (g := fun _ => reply) by exact Hfresh.
  repeat split; reflexivity.
Qed.

Lemma create_during_fetch_is_lost_witness :
  let empty := mkState [] false None in
  let fetching := Zustand.fetchPosts empty in
  let creating := Zustand.createPost Sample.clock Sample.draft (immediate fetching) in
  let fetched :=
    fst (resume_on fetching (Resolved (posts Sample.stored)) (immediate creating)) in
  ~ In Sample.clock (ids (posts Sample.stored)) /\
  posts (fst (resume_on creating (Resolved Sample.served) fetched))
  = [Sample.post3; Sample.post5; Sample.post7].
Proof.
  cbv zeta.
  assert (Hf : ~ In Sample.clock (ids (posts Sample.stored))).
  { simpl. unfold Sample.clock. intros [H | [H | [H | []]]]; discriminate. }
  split; [exact Hf|].
  exact (proj1 (proj2 (proj2
    (create_during_fetch_is_lost (mkState [] false None) (posts Sample.stored)
       Sample.clock Sample.draft Sample.served Hf)))).
Defined.
